(** * big-raster-handler: tiling and merging of large rasters

    A shallow embedding of [src/raster.py] (class [Raster]): the window
    loop of [generate_tiles], the tile naming, the metadata dictionaries
    and the [try]/[except]/[finally] structure of [merge_tiles].

    Python integers are [Z]; dictionaries ([meta], [profile]) are
    [gmap string MetaVal]; raised exceptions are values of [exn]; the
    I/O performed through rasterio is recorded as a trace of events in an
    explicit world that every operation threads. *)

From Stdlib Require Import ZArith QArith Lia String Ascii DecimalString DecimalN.
From stdpp Require Import base decidable option list list_numbers sorting
  strings gmap fin_maps.

Local Open Scope Z_scope.

(** ** Python exceptions *)

Inductive exn : Type :=
  | ValueError (msg : string)
  | IndexError
  | RasterioIOError (path : string)
  | MergeError
  | OSError (path : string).

Definition result (A : Type) : Type := (A + exn)%type.

(** ** Python's [range(start, stop, step)] *)

Module PyRange.

(** [len(range(start, stop, step))] for a non-zero step. *)
Definition range_len (start stop step : Z) : Z :=
  if decide (0 < step) then
    if decide (start < stop) then (stop - start - 1) / step + 1 else 0
  else
    if decide (stop < start) then (start - stop - 1) / (- step) + 1 else 0.

(** The elements of the range, in iteration order; a zero step raises
    [ValueError] when the range object is built. *)
Definition range (start stop step : Z) : result (list Z) :=
  if decide (step = 0) then
    inr (ValueError "range() arg 3 must not be zero")
  else
    inl ((λ k, start + k * step) <$> seqZ 0 (range_len start stop step)).

End PyRange.

(** ** Windows ([rasterio.windows.Window]) *)

Record Window : Type := mkWindow {
  col_off : Z;
  row_off : Z;
  width : Z;
  height : Z
}.

#[global] Instance Window_eq_dec : EqDecision Window.
Proof. solve_decision. Defined.

(** The window built in the body of the two loops of [generate_tiles]
    for column offset [i] and row offset [j]. *)
Definition tile_window (W H tile_size i j : Z) : Window :=
  let w := Z.min tile_size (W - i) in
  let h := Z.min tile_size (H - j) in
  mkWindow i j w h.

(** The windows of the loop nest [for i in cols: for j in rows: ...], in
    the order in which the loop body meets them. *)
Definition tile_windows (W H tile_size : Z) : result (list Window) :=
  match PyRange.range 0 W tile_size with
  | inr e => inr e
  | inl cols =>
    match PyRange.range 0 H tile_size with
    | inr e => inr e
    | inl rows =>
      inl (i ← cols; j ← rows; [tile_window W H tile_size i j])
    end
  end.

(** Pixel [(x, y)] (column, row) lies inside window [w]. *)
Definition covers (w : Window) (x y : Z) : Prop :=
  col_off w ≤ x < col_off w + width w ∧ row_off w ≤ y < row_off w + height w.

#[global] Instance covers_dec w x y : Decision (covers w x y).
Proof. unfold covers. apply _. Defined.


(** ** Affine transforms

    Six coefficients mapping pixel (column, row) to world (x, y):
    [x = a*col + b*row + c] and [y = d*col + e*row + f].  The coefficients
    are exact rationals. *)

Record Affine : Type := mkAffine {
  af_a : Q; af_b : Q; af_c : Q;
  af_d : Q; af_e : Q; af_f : Q
}.

Definition pixel_to_world (T : Affine) (col row : Q) : Q * Q :=
  ((af_a T * col + af_b T * row + af_c T)%Q,
   (af_d T * col + af_e T * row + af_f T)%Q).

(** Modelled from the spec: [src.window_transform(window)] is rasterio's
    method and is not part of [src/raster.py], which only calls it.  The
    spec gives the rule: composing with the pixel-space translation
    [(dx, dy)] shifts the origin by [(a*dx + b*dy, d*dx + e*dy)] and leaves
    the scale and rotation coefficients unchanged; [(dx, dy)] is the
    window's [(col_off, row_off)]. *)
Definition window_transform (T : Affine) (w : Window) : Affine :=
  let dx := inject_Z (col_off w) in
  let dy := inject_Z (row_off w) in
  mkAffine (af_a T) (af_b T) (af_c T + (af_a T * dx + af_b T * dy))%Q
           (af_d T) (af_e T) (af_f T + (af_d T * dx + af_e T * dy))%Q.

(** ** Metadata dictionaries and arrays *)

Inductive MetaVal : Type :=
  | VNone
  | VBool (b : bool)
  | VInt (n : Z)
  | VStr (s : string)
  | VAffine (t : Affine).

(** [d.update({k1: v1, ...})]: the pairs are stored one after the other. *)
Definition dict_update (kvs : list (string * MetaVal))
    (d : gmap string MetaVal) : gmap string MetaVal :=
  foldl (λ m kv, <[kv.1 := kv.2]> m) d kvs.

(** [d.get(k, default)] *)
Definition dict_get (d : gmap string MetaVal) (k : string)
    (default : MetaVal) : MetaVal :=
  match d !! k with Some v => v | None => default end.

(** A numpy array of shape (bands, rows, columns) with its values. *)
Record NDArray : Type := mkNDArray {
  nd_shape : Z * Z * Z;
  nd_data : list Z
}.

(** What an opened rasterio dataset exposes to [raster.py]. *)
Record Dataset : Type := mkDataset {
  ds_path : string;
  ds_driver : string;
  ds_meta : gmap string MetaVal;
  ds_profile : gmap string MetaVal;
  ds_width : Z;
  ds_height : Z;
  ds_count : Z;
  ds_crs : MetaVal;
  ds_is_tiled : bool;
  ds_transform : Affine;
  ds_compression : MetaVal
}.

(** The attributes [Raster.__init__] stores on [self] ([name], which only
    [plot] and [__repr__] read, is left out).  [self.width] and
    [self.height] are [r_width] and [r_height]: [width] and [height] are
    the fields of [Window]. *)
Record Raster : Type := mkRaster {
  filepath : string;
  driver : string;
  dtype : MetaVal;
  blockxsize : MetaVal;
  blockysize : MetaVal;
  r_width : Z;
  r_height : Z;
  shape : Z * Z;
  channels : Z;
  crs : MetaVal;
  tiled : bool;
  transform : Affine;
  compression : MetaVal;
  _ext : string
}.

(** ** The world: file system and rasterio *)

(** Everything the code cannot decide itself: which files open, what a
    window read returns, what [rasterio.merge.merge] computes, which paths
    can be created and written, what [glob.glob] lists, which folders
    [os.makedirs] can make.  [None] and [false] stand for the call
    raising. *)
Record Env : Type := mkEnv {
  rio_open : string → option Dataset;
  rio_read : Dataset → Window → option NDArray;
  rio_merge : list Dataset → option (NDArray * Affine);
  rio_create : string → bool;
  rio_write : string → NDArray → bool;
  glob : string → list string;
  fs_makedirs : string → bool
}.

Inductive Event : Type :=
  | EvMakedirs (path : string)
  | EvOpenR (h : nat) (path : string)
  | EvOpenW (h : nat) (path : string) (profile : gmap string MetaVal)
  | EvWrite (h : nat) (data : NDArray)
  | EvClose (h : nat)
  | EvPrint (msg : string) (e : exn).

Record World : Type := mkWorld {
  next_handle : nat;
  paths : gset string;
  trace : list Event
}.

(** ** A monad for state, mutable locals and exceptions

    A computation reads and updates the mutable locals [L] of the running
    method and the world, and either returns or raises. *)

Definition M (L A : Type) : Type := L → World → result A * L * World.

#[global] Instance M_ret {L} : MRet (M L) := λ A a l w, (inl a, l, w).

#[global] Instance M_bind {L} : MBind (M L) := λ A B k m l w,
  match m l w with
  | (inl a, l', w') => k a l' w'
  | (inr e, l', w') => (inr e, l', w')
  end.

Definition raise {L A} (e : exn) : M L A := λ l w, (inr e, l, w).

Definition lift_result {L A} (r : result A) : M L A := λ l w, (r, l, w).

Definition get_local {L} : M L L := λ l w, (inl l, l, w).
Definition set_local {L} (l' : L) : M L unit := λ _ w, (inl tt, l', w).

Definition emit {L} (ev : Event) : M L unit := λ l w,
  (inl tt, l, mkWorld (next_handle w) (paths w) (trace w ++ [ev])).

(** [try: body finally: fin] *)
Definition try_finally {L A} (body : M L A) (fin : M L unit) : M L A :=
  λ l w,
  match body l w with
  | (r, l1, w1) =>
    match fin l1 w1 with
    | (inl _, l2, w2) => (r, l2, w2)
    | (inr e, l2, w2) => (inr e, l2, w2)
    end
  end.

(** [try: body except Exception as e: handler(e)] *)
Definition try_except {L A} (body : M L A) (handler : exn → M L A) : M L A :=
  λ l w,
  match body l w with
  | (inl a, l1, w1) => (inl a, l1, w1)
  | (inr e, l1, w1) => handler e l1 w1
  end.

(** [for x in xs: body(x)] *)
Fixpoint for_ {L A} (xs : list A) (body : A → M L unit) : M L unit :=
  match xs with
  | [] => mret tt
  | x :: xs' => body x;; for_ xs' body
  end.

(** Run a method from fresh locals; the locals die with the call. *)
Definition run {L A} (locals : L) (m : M L A) (w : World) : result A * World :=
  match m locals w with (r, _, w') => (r, w') end.

(** ** The operations of [os] and rasterio that [raster.py] calls *)

Section Primitives.
Context {L : Type}.
Variable env : Env.

(** [os.path.exists(p)]; the empty path never exists. *)
Definition path_exists (p : string) : M L bool := λ l w,
  (inl (bool_decide (p ≠ "" ∧ p ∈ paths w)), l, w).

(** [os.makedirs(p)]: raises [OSError] for the empty path
    ([FileNotFoundError]) and wherever the file system refuses (a parent
    that is a file, no permission, ...). *)
Definition makedirs (p : string) : M L unit := λ l w,
  if bool_decide (p ≠ "") && fs_makedirs env p then
    (inl tt, l,
     mkWorld (next_handle w) ({[p]} ∪ paths w) (trace w ++ [EvMakedirs p]))
  else (inr (OSError p), l, w).

(** [rasterio.open(p)]: a fresh handle on the dataset, or an exception. *)
Definition rio_open_r (p : string) : M L (nat * Dataset) := λ l w,
  match rio_open env p with
  | None => (inr (RasterioIOError p), l, w)
  | Some ds =>
    let h := next_handle w in
    (inl (h, ds), l, mkWorld (S h) (paths w) (trace w ++ [EvOpenR h p]))
  end.

(** [rasterio.open(p, mode="w", **profile)]: creates the file. *)
Definition rio_open_w (p : string) (profile : gmap string MetaVal)
    : M L nat := λ l w,
  if rio_create env p then
    let h := next_handle w in
    (inl h, l,
     mkWorld (S h) ({[p]} ∪ paths w) (trace w ++ [EvOpenW h p profile]))
  else (inr (RasterioIOError p), l, w).

(** [dst.write(data)] on the handle [h] opened on path [p]. *)
Definition rio_write_to (h : nat) (p : string) (data : NDArray) : M L unit :=
  if rio_write env p data then emit (EvWrite h data)
  else raise (RasterioIOError p).

(** [src.close()]; closing is taken not to raise. *)
Definition rio_close (h : nat) : M L unit := emit (EvClose h).

(** [src.read(window=window)] *)
Definition rio_read_window (src : Dataset) (window : Window) : M L NDArray :=
  match rio_read env src window with
  | Some data => mret data
  | None => raise (RasterioIOError (ds_path src))
  end.

(** [merge(datasets)] of [rasterio.merge] *)
Definition rio_merge_all (srcs : list Dataset) : M L (NDArray * Affine) :=
  match rio_merge env srcs with
  | Some r => mret r
  | None => raise MergeError
  end.

(** [Raster.save(output_path, data, profile)]:
    [with rasterio.open(output_path, mode="w", **profile) as dst:
       dst.write(data)] *)
Definition save (output_path : string) (data : NDArray)
    (profile : gmap string MetaVal) : M L unit :=
  dst ← rio_open_w output_path profile;
  try_finally (rio_write_to dst output_path data) (rio_close dst).

End Primitives.

(** [os.path.join(a, b)] on POSIX paths. *)
Definition ends_with_slash (s : string) : bool :=
  match rev (list_ascii_of_string s) with
  | c :: _ => bool_decide (c = "/"%char)
  | [] => false
  end.

Definition os_path_join (a b : string) : string :=
  if String.prefix "/" b then b
  else if bool_decide (a = "") || ends_with_slash a then a +:+ b
  else a +:+ "/" +:+ b.

(** [format(n, "05d")]: decimal digits, zero-filled after the sign to a
    total width of at least 5. *)
Definition fmt_05d (n : Z) : string :=
  let digits := NilZero.string_of_uint (N.to_uint (Z.abs_N n)) in
  let sign := if decide (n < 0) then "-" else "" in
  let pad := (5 - String.length sign - String.length digits)%nat in
  sign +:+ string_of_list_ascii (replicate pad "0"%char) +:+ digits.

(** [f"tile_x{i:05d}_y{j:05d}.{self._ext}"] *)
Definition tile_name (self : Raster) (i j : Z) : string :=
  "tile_x" +:+ fmt_05d i +:+ "_y" +:+ fmt_05d j +:+ "." +:+ _ext self.

(** ** [Raster.__init__] *)

Definition Raster_init (env : Env) (path : string) : World → result Raster * World :=
  run tt (
    '(h, src) ← rio_open_r env path;
    try_finally
      (mret {|
         filepath := path;
         driver := ds_driver src;
         dtype := dict_get (ds_meta src) "dtype" (VStr "uint8");
         blockxsize := dict_get (ds_profile src) "blockxsize" VNone;
         blockysize := dict_get (ds_profile src) "blockysize" VNone;
         r_width := ds_width src;
         r_height := ds_height src;
         shape := (ds_height src, ds_width src);
         channels := ds_count src;
         crs := ds_crs src;
         tiled := ds_is_tiled src;
         transform := ds_transform src;
         compression := ds_compression src;
         _ext := ".tif"
       |})
      (rio_close h)).

(** ** [Raster.generate_tiles] *)

(** The body of the two loops, for column offset [i] and row offset [j]. *)
Definition tile_body (env : Env) (self : Raster) (src : Dataset)
    (output_folder : string) (tile_size : Z) (tiled_arg : bool)
    (i j : Z) : M unit unit :=
  let w := Z.min tile_size (r_width self - i) in
  let h := Z.min tile_size (r_height self - j) in
  let window := mkWindow i j w h in
  data ← rio_read_window env src window;
  let transform := window_transform (ds_transform src) window in
  let profile :=
    dict_update [("driver", VStr (driver self));
                 ("height", VInt h);
                 ("width", VInt w);
                 ("transform", VAffine transform);
                 ("tiled", VBool tiled_arg)] (ds_meta src) in
  let name := tile_name self i j in
  let out_path := os_path_join output_folder name in
  save env out_path data profile.

Definition generate_tiles (env : Env) (self : Raster) (output_folder : string)
    (tile_size : Z) (tiled_arg : bool) (compress photometric : string)
    : World → result unit * World :=
  run tt (
    ex ← path_exists output_folder;
    (if (ex : bool) then mret tt else makedirs env output_folder);;
    '(hsrc, src) ← rio_open_r env (filepath self);
    try_finally
      (cols ← lift_result (PyRange.range 0 (r_width self) tile_size);
       rows ← lift_result (PyRange.range 0 (r_height self) tile_size);
       for_ cols (λ i,
         for_ rows (λ j,
           tile_body env self src output_folder tile_size tiled_arg i j)))
      (rio_close hsrc)).

(** ** [Raster.merge_tiles] *)

(** The mutable local [src_files_to_mosaic]: the opened inputs, each with
    its handle. *)
Definition merge_locals : Type := list (nat * Dataset).

Definition merge_out_meta (self : Raster) (first : Dataset)
    (mosaic : NDArray) (out_trans : Affine) : gmap string MetaVal :=
  dict_update [("driver", VStr "GTiff");
               ("height", VInt (nd_shape mosaic).1.2);
               ("width", VInt (nd_shape mosaic).2);
               ("transform", VAffine out_trans);
               ("compress", compression self);
               ("tiled", VBool (tiled self));
               ("blockxsize", blockxsize self);
               ("blockysize", blockysize self)] (ds_meta first).

(** The [try] block, first part: [for fp in filepaths: ...] opens the
    inputs and appends each to [src_files_to_mosaic]. *)
Definition open_inputs (env : Env) (filepaths : list string)
    : M merge_locals unit :=
  for_ filepaths (λ fp,
    src ← rio_open_r env fp;
    opened ← get_local;
    set_local (opened ++ [src])).

(** The [try] block, second part: merge, derive the metadata, write. *)
Definition write_mosaic (env : Env) (self : Raster) (output_path : string)
    : M merge_locals unit :=
  src_files_to_mosaic ← get_local;
  '(mosaic, out_trans) ← rio_merge_all env (snd <$> src_files_to_mosaic);
  first ← match (src_files_to_mosaic : merge_locals) !! 0%nat with
          | Some src => mret src.2
          | None => raise IndexError
          end;
  let out_meta := merge_out_meta self first mosaic out_trans in
  dest ← rio_open_w env output_path out_meta;
  try_finally (rio_write_to env dest output_path mosaic) (rio_close dest).

(** The [finally] block. *)
Definition close_inputs : M merge_locals unit :=
  src_files_to_mosaic ← get_local;
  for_ src_files_to_mosaic (λ src, rio_close src.1).

Definition merge_tiles (env : Env) (self : Raster)
    (input_folder output_path : string) : World → result unit * World :=
  let criteria_search := os_path_join input_folder "*.tif" in
  let filepaths := glob env criteria_search in
  if bool_decide (filepaths = []) then λ w, (inl tt, w)
  else
    run [] (
      try_finally
        (try_except
           (open_inputs env filepaths;; write_mosaic env self output_path)
           (λ e, emit (EvPrint "Error in merging tiles: " e)))
        close_inputs).

(** ** Vocabulary of the properties *)

(** The extent [min(tile_size, dim - i)] of the window starting at offset
    [i] on an axis of length [dim] contains coordinate [x]. *)
Definition axis_covers (dim tile_size x i : Z) : Prop :=
  i ≤ x < i + Z.min tile_size (dim - i).

#[global] Instance axis_covers_dec dim tile_size x i :
  Decision (axis_covers dim tile_size x i).
Proof. unfold axis_covers. apply _. Defined.

(** The windows met by the loop nest over the given offsets. *)
Definition grid (W H tile_size : Z) (cols rows : list Z) : list Window :=
  i ← cols; j ← rows; [tile_window W H tile_size i j].

(** [a] comes before [b] in column-major-outer order: a smaller column
    offset, or the same column offset and a smaller row offset. *)
Definition emitted_before (a b : Window) : Prop :=
  col_off a < col_off b ∨ (col_off a = col_off b ∧ row_off a < row_off b).

(** An input opened by the loop of [merge_tiles]: handle, path, dataset. *)
Definition opened_src (t : nat * string * Dataset) : nat * Dataset :=
  (t.1.1, t.2).
Definition opened_handle (t : nat * string * Dataset) : nat := t.1.1.
Definition open_event (t : nat * string * Dataset) : Event :=
  EvOpenR t.1.1 t.1.2.
Definition close_event (t : nat * string * Dataset) : Event :=
  EvClose t.1.1.

(** Any event but the opening of an input. *)
Definition not_open_r (ev : Event) : Prop :=
  match ev with EvOpenR _ _ => False | _ => True end.

(** The folder step of [generate_tiles] passes: the output folder exists,
    or [os.makedirs] can make it. *)
Definition folder_ready (env : Env) (w : World) (p : string) : bool :=
  bool_decide (p ≠ "" ∧ p ∈ paths w) ||
  (bool_decide (p ≠ "") && fs_makedirs env p).

(** Paths of the files created (opened for writing) along a trace. *)
Definition created (t : list Event) : list string :=
  omap (λ ev, match ev with EvOpenW _ p _ => Some p | _ => None end) t.

(** The (width, height) sizes of a list of windows, in order. *)
Definition window_sizes (ws : list Window) : list (Z * Z) :=
  (λ w, (width w, height w)) <$> ws.

(** ** A concrete raster and environment *)

Definition demo_transform : Affine := mkAffine 2 0 100 0 (-2) 500.

Definition demo_dataset (p : string) : Dataset :=
  mkDataset p "GTiff"
    {[ "driver" := VStr "GTiff"; "dtype" := VStr "uint8";
       "compress" := VStr "lzw" ]}
    {[ "blockxsize" := VInt 256 ]}
    5 3 1 (VStr "EPSG:4326") false demo_transform VNone.

(** Every file opens, reads, merges and writes; the input folder holds
    [listing]. *)
Definition demo_env (listing : list string) : Env :=
  mkEnv (λ p, Some (demo_dataset p))
        (λ _ win, Some (mkNDArray (1, height win, width win) []))
        (λ _, Some (mkNDArray (1, 3, 5) [], demo_transform))
        (λ _, true) (λ _ _, true) (λ _, listing) (λ _, true).

(** As [demo_env], but the file [bad] cannot be opened. *)
Definition failing_env (listing : list string) (bad : string) : Env :=
  mkEnv (λ p, if bool_decide (p = bad) then None else Some (demo_dataset p))
        (λ _ win, Some (mkNDArray (1, height win, width win) []))
        (λ _, Some (mkNDArray (1, 3, 5) [], demo_transform))
        (λ _, true) (λ _ _, true) (λ _, listing) (λ _, true).

Definition demo_world : World := mkWorld 0 ∅ [].

(** The [self] that [Raster("big.tif")] builds in [demo_env]. *)
Definition demo_raster : Raster :=
  match (Raster_init (demo_env []) "big.tif" demo_world).1 with
  | inl self => self
  | inr _ => mkRaster "" "" VNone VNone VNone 0 0 (0, 0) 0 VNone false
               demo_transform VNone ""
  end.

(** ** Vocabulary for the further properties *)
(** The profile [generate_tiles] stores with the tile of window [win]. *)
Definition tile_profile (self : Raster) (src : Dataset) (tiled_arg : bool)
    (win : Window) : gmap string MetaVal :=
  dict_update [("driver", VStr (driver self));
               ("height", VInt (height win));
               ("width", VInt (width win));
               ("transform", VAffine (window_transform (ds_transform src) win));
               ("tiled", VBool tiled_arg)] (ds_meta src).

(** The path under which the tile of window [win] is saved. *)
Definition tile_path (self : Raster) (output_folder : string)
    (win : Window) : string :=
  os_path_join output_folder (tile_name self (col_off win) (row_off win)).

(** What one pass of the loop body does for window [win] when the next
    free handle is [h]: its outcome and the events it records. *)
Definition tile_attempt (env : Env) (self : Raster) (src : Dataset)
    (output_folder : string) (tiled_arg : bool) (h : nat) (win : Window)
    : result unit * list Event :=
  match rio_read env src win with
  | None => (inr (RasterioIOError (ds_path src)), [])
  | Some data =>
    let p := tile_path self output_folder win in
    let profile := tile_profile self src tiled_arg win in
    if rio_create env p then
      if rio_write env p data
      then (inl tt, [EvOpenW h p profile; EvWrite h data; EvClose h])
      else (inr (RasterioIOError p), [EvOpenW h p profile; EvClose h])
    else (inr (RasterioIOError p), [])
  end.

(** The passes of the loop over [ws], up to and including the first one
    that raises. *)
Fixpoint tiles_run (env : Env) (self : Raster) (src : Dataset)
    (output_folder : string) (tiled_arg : bool) (h : nat)
    (ws : list Window) : result unit * list Event :=
  match ws with
  | [] => (inl tt, [])
  | win :: ws' =>
    match tile_attempt env self src output_folder tiled_arg h win with
    | (inl _, evs) =>
      let '(r, evs') :=
        tiles_run env self src output_folder tiled_arg (S h) ws' in
      (r, evs ++ evs')
    | (inr e, evs) => (inr e, evs)
    end
  end.

(** Handles still open after the events [t], starting from [open]. *)
Definition track (open : list nat) (ev : Event) : list nat :=
  match ev with
  | EvOpenR h _ | EvOpenW h _ _ => open ++ [h]
  | EvClose h => filter (λ x, x ≠ h) open
  | _ => open
  end.

Definition unclosed (t : list Event) : list nat := foldl track [] t.

(** The files created along a trace, each with the profile it was created
    with. *)
Definition created_with (t : list Event)
    : list (string * gmap string MetaVal) :=
  omap (λ ev, match ev with
              | EvOpenW _ p profile => Some (p, profile)
              | _ => None
              end) t.

(** The arrays written through handle [h] along a trace, up to the event
    that closes [h]. *)
Fixpoint writes_to (h : nat) (t : list Event) : list NDArray :=
  match t with
  | [] => []
  | EvWrite h' data :: t' =>
    if decide (h' = h) then data :: writes_to h t' else writes_to h t'
  | EvClose h' :: t' => if decide (h' = h) then [] else writes_to h t'
  | _ :: t' => writes_to h t'
  end.

(** The files created along a trace: each with the profile it was created
    with and the arrays written through the handle it was opened on, from
    its creation until that handle is closed. *)
Fixpoint saved_files (t : list Event)
    : list (string * gmap string MetaVal * list NDArray) :=
  match t with
  | [] => []
  | EvOpenW h p profile :: t' => (p, profile, writes_to h t') :: saved_files t'
  | _ :: t' => saved_files t'
  end.

(** The arrays written along a trace. *)
Definition written (t : list Event) : list NDArray :=
  omap (λ ev, match ev with EvWrite _ data => Some data | _ => None end) t.

(** The inputs opened for [fps] from handle [h] on. *)
Definition inputs_at (h : nat) (fps : list string) (dss : list Dataset)
    : list (nat * string * Dataset) :=
  zip (zip (seq h (length fps)) fps) dss.

(** A text made of decimal digits only. *)
Definition decimal (s : string) : Prop :=
  is_Some (NilEmpty.uint_of_string s).

(** ** [Raster.to_numpy_array] and the numpy operations it uses *)

Module Numpy.

(** Position of element [(i, j, k)] in the row-major values of an array
    of shape [(d0, d1, d2)]. *)
Definition flat_index (shp : Z * Z * Z) (i j k : Z) : Z :=
  (i * shp.1.2 + j) * shp.2 + k.

(** [a[i, j, k]]; [None] outside the shape. *)
Definition get (a : NDArray) (i j k : Z) : option Z :=
  let '(d0, d1, d2) := nd_shape a in
  if decide (0 ≤ i < d0 ∧ 0 ≤ j < d1 ∧ 0 ≤ k < d2)
  then nd_data a !! Z.to_nat (flat_index (nd_shape a) i j k)
  else None.

(** [a[0:stop, :, :]] for a non-negative [stop]. *)
Definition take_bands (stop : Z) (a : NDArray) : NDArray :=
  let '(d0, d1, d2) := nd_shape a in
  let n := Z.min stop d0 in
  mkNDArray (n, d1, d2) (take (Z.to_nat (n * d1 * d2)) (nd_data a)).

(** [a.transpose(1, 2, 0)]: axis 0 of the result is axis 1 of [a], axis 1
    is axis 2 and axis 2 is axis 0. *)
Definition transpose_120 (a : NDArray) : NDArray :=
  let '(d0, d1, d2) := nd_shape a in
  mkNDArray (d1, d2, d0)
    (j ← seqZ 0 d1; k ← seqZ 0 d2; i ← seqZ 0 d0;
     [default 0 (nd_data a !! Z.to_nat (flat_index (nd_shape a) i j k))]).

(** The values fill the shape. *)
Definition well_formed (a : NDArray) : Prop :=
  let '(d0, d1, d2) := nd_shape a in
  0 ≤ d0 ∧ 0 ≤ d1 ∧ 0 ≤ d2 ∧ length (nd_data a) = Z.to_nat (d0 * d1 * d2).

End Numpy.

(** [src.read()] with no window reads the whole raster: the window at
    offset (0, 0) with the size of the dataset. *)
Definition full_window (src : Dataset) : Window :=
  mkWindow 0 0 (ds_width src) (ds_height src).

Definition to_numpy_array (env : Env) (self : Raster)
    : World → result NDArray * World :=
  run tt (
    '(h, src) ← rio_open_r env (filepath self);
    try_finally
      (data ← rio_read_window env src (full_window src);
       let data :=
         if decide (channels self > 3) then Numpy.take_bands 3 data
         else data in
       let image := Numpy.transpose_120 data in
       mret image)
      (rio_close h)).

(** As [demo_env], with a switch for the merge, for the creation of files
    and for writing. *)
Definition switch_env (listing : list string)
    (merge_ok create_ok write_ok : bool) : Env :=
  mkEnv (λ p, Some (demo_dataset p))
        (λ _ win, Some (mkNDArray (1, height win, width win) []))
        (λ _, if merge_ok then Some (mkNDArray (1, 3, 5) [], demo_transform)
              else None)
        (λ _, create_ok) (λ _ _, write_ok) (λ _, listing) (λ _, true).

(** Four bands of two rows and three columns, numbered in storage
    order. *)
Definition demo_pixels : NDArray := mkNDArray (4, 2, 3) (seqZ 0 24).

(** Every file opens and every read returns [demo_pixels]. *)
Definition pixel_env : Env :=
  mkEnv (λ p, Some (demo_dataset p)) (λ _ _, Some demo_pixels)
        (λ _, None) (λ _, true) (λ _ _, true) (λ _, []) (λ _, true).

(** A raster that was opened with four bands. *)
Definition four_band_raster : Raster :=
  mkRaster "rgba.tif" "GTiff" (VStr "uint8") VNone VNone 3 2 (2, 3) 4
    (VStr "EPSG:4326") false demo_transform VNone ".tif".

(** * Properties *)

(** ** [range] on examples *)

Example range_0_10_3 : PyRange.range 0 10 3 = inl [0; 3; 6; 9].
Proof. reflexivity. Qed.

Example range_0_9_3 : PyRange.range 0 9 3 = inl [0; 3; 6].
Proof. reflexivity. Qed.

Example range_0_10_neg : PyRange.range 0 10 (-3) = inl [].
Proof. reflexivity. Qed.

Example range_10_0_neg : PyRange.range 10 0 (-3) = inl [10; 7; 4; 1].
Proof. reflexivity. Qed.

Example fmt_05d_examples :
  fmt_05d 0 = "00000" ∧ fmt_05d 1024 = "01024" ∧
  fmt_05d 123456 = "123456" ∧ fmt_05d (-5) = "-0005".
Proof. by vm_compute. Qed.

Example tile_windows_5_3_3 :
  tile_windows 5 3 3 = inl [mkWindow 0 0 3 3; mkWindow 3 0 2 3].
Proof. reflexivity. Qed.

(** ** [range(0, stop, step)] with a positive step *)

Section RangeFacts.
Variables stop step : Z.
Hypothesis step_pos : 0 < step.

Lemma range_pos_eq :
  PyRange.range 0 stop step =
    inl ((λ k, 0 + k * step) <$> seqZ 0 (PyRange.range_len 0 stop step)).
Proof.
  unfold PyRange.range. destruct (decide (step = 0)); [lia | done].
Qed.

Lemma range_len_bound k :
  0 ≤ k < PyRange.range_len 0 stop step ↔ 0 ≤ k ∧ k * step < stop.
Proof.
  unfold PyRange.range_len.
  destruct (decide (0 < step)); [| lia].
  destruct (decide (0 < stop)) as [Hs | Hs].
  - replace (stop - 0 - 1) with (stop - 1) by lia.
    pose proof (Z.div_mod (stop - 1) step ltac:(lia)) as Hdm.
    pose proof (Z.mod_pos_bound (stop - 1) step step_pos) as Hmb.
    split; intros [H0 H1]; split; try lia; nia.
  - split; [lia |]. intros [H0 H1]. nia.
Qed.

Lemma elem_of_range l i :
  PyRange.range 0 stop step = inl l →
  i ∈ l ↔ 0 ≤ i < stop ∧ ∃ k, i = k * step.
Proof.
  rewrite range_pos_eq. intros [= <-].
  rewrite list_elem_of_fmap. split.
  - intros (k & -> & Hk). apply elem_of_seqZ in Hk.
    assert (0 ≤ k < PyRange.range_len 0 stop step) as Hb by lia.
    apply range_len_bound in Hb. split; [nia | exists k; lia].
  - intros ([H0 H1] & k & ->). exists k. split; [lia |].
    apply elem_of_seqZ.
    assert (0 ≤ k < PyRange.range_len 0 stop step); [| lia].
    apply range_len_bound. split; [nia | done].
Qed.

Lemma range_NoDup l : PyRange.range 0 stop step = inl l → NoDup l.
Proof.
  rewrite range_pos_eq. intros [= <-].
  apply NoDup_fmap_2; [| apply NoDup_seqZ].
  intros k1 k2 Hk. nia.
Qed.

Lemma seqZ_sorted m n : StronglySorted Z.lt (seqZ m n).
Proof.
  destruct (decide (0 ≤ n)) as [Hn | Hn]; [| rewrite seqZ_nil by lia; constructor].
  rewrite <- (Z2Nat.id n Hn). generalize (Z.to_nat n) as c. clear Hn.
  intros c. revert m. induction c as [| c IH]; intros m.
  - rewrite seqZ_nil by lia. constructor.
  - rewrite seqZ_cons by lia. constructor.
    + replace (Z.pred (Z.of_nat (S c))) with (Z.of_nat c) by lia. apply IH.
    + apply Forall_forall. intros k Hk. apply elem_of_seqZ in Hk. lia.
Qed.

Lemma range_sorted l :
  PyRange.range 0 stop step = inl l → StronglySorted Z.lt l.
Proof.
  rewrite range_pos_eq. intros [= <-].
  apply StronglySorted_fmap with (R1 := Z.lt); [| apply seqZ_sorted].
  intros k1 k2 Hk. nia.
Qed.

End RangeFacts.

(** ** Counting the elements of a list that satisfy a predicate *)

Section Counting.
Context {A : Type} (P : A → Prop) `{!∀ a, Decision (P a)}.

Lemma filter_none (l : list A) :
  (∀ a, a ∈ l → ¬ P a) → filter P l = [].
Proof.
  induction l as [| a l IH]; intros Hl; [done |].
  rewrite filter_cons_False by (apply Hl; left).
  apply IH. intros b Hb. apply Hl. by right.
Qed.

(** In a duplicate-free list, a predicate that singles out one member
    is satisfied exactly once. *)
Lemma filter_unique (l : list A) (c : A) :
  NoDup l → c ∈ l → (∀ a, a ∈ l → P a ↔ a = c) →
  length (filter P l) = 1%nat.
Proof.
  induction l as [| a l IH]; intros Hnd Hc HP.
  - by apply elem_of_nil in Hc.
  - apply NoDup_cons in Hnd as [Ha Hnd].
    destruct (decide (P a)) as [Hpa | Hpa].
    + assert (a = c) as -> by (apply HP; [left | done]).
      rewrite filter_cons_True by done.
      rewrite filter_none; [done |].
      intros b Hb Hpb. apply HP in Hpb; [| by right]. by subst.
    + rewrite filter_cons_False by done.
      apply IH; [done | |].
      * apply elem_of_cons in Hc as [-> | Hc]; [| done].
        exfalso. apply Hpa. apply HP; [left | done].
      * intros b Hb. apply HP. by right.
Qed.

End Counting.

(** ** One axis of the grid *)

Section Axis.
Variables dim tile_size : Z.
Hypothesis tile_size_pos : 0 < tile_size.
Variable offs : list Z.
Hypothesis offs_range : PyRange.range 0 dim tile_size = inl offs.

Lemma axis_extent i :
  i ∈ offs →
  0 ≤ i ∧ 0 < Z.min tile_size (dim - i) ∧ i + Z.min tile_size (dim - i) ≤ dim.
Proof.
  intros Hi. apply (elem_of_range dim tile_size tile_size_pos offs i offs_range) in Hi.
  lia.
Qed.

Lemma axis_covers_once x :
  0 ≤ x < dim →
  length (filter (axis_covers dim tile_size x) offs) = 1%nat.
Proof.
  intros Hx.
  pose proof (Z.div_mod x tile_size ltac:(lia)) as Hdm.
  pose proof (Z.mod_pos_bound x tile_size tile_size_pos) as Hmb.
  assert (0 ≤ x / tile_size) as Hq by (apply Z.div_pos; lia).
  set (q := x / tile_size) in *. set (r := x mod tile_size) in *.
  apply filter_unique with (c := q * tile_size).
  - by apply (range_NoDup dim tile_size).
  - apply (elem_of_range dim tile_size tile_size_pos offs _ offs_range).
    split; [nia | by eexists].
  - intros i Hi.
    apply (elem_of_range dim tile_size tile_size_pos offs i offs_range) in Hi
      as [Hi (k & ->)].
    unfold axis_covers. split.
    + intros Hc. assert (k = q) as -> by nia. done.
    + intros Hk. assert (k = q) as -> by nia. nia.
Qed.


End Axis.

(** ** The grid of windows *)

Section Grid.
Variables W H tile_size : Z.

Lemma elem_of_grid cols rows w :
  w ∈ grid W H tile_size cols rows ↔
  ∃ i j, i ∈ cols ∧ j ∈ rows ∧ w = tile_window W H tile_size i j.
Proof.
  unfold grid. rewrite list_elem_of_bind. split.
  - intros (i & Hw & Hi). apply list_elem_of_bind in Hw as (j & Hw & Hj).
    apply list_elem_of_singleton in Hw. eauto.
  - intros (i & j & Hi & Hj & ->). exists i. split; [| done].
    apply list_elem_of_bind. exists j. split; [| done].
    by apply list_elem_of_singleton.
Qed.

Lemma covers_tile_window i j x y :
  covers (tile_window W H tile_size i j) x y ↔
  axis_covers W tile_size x i ∧ axis_covers H tile_size y j.
Proof. done. Qed.

Lemma column_count i rows x y :
  length (filter (λ w, covers w x y)
            (j ← rows; [tile_window W H tile_size i j])) =
  if decide (axis_covers W tile_size x i)
  then length (filter (axis_covers H tile_size y) rows) else 0%nat.
Proof.
  induction rows as [| j rows IH].
  - by destruct (decide _).
  - rewrite bind_cons, filter_app, length_app, IH. clear IH.
    rewrite !filter_cons, filter_nil.
    destruct (decide (covers _ x y)) as [Hc | Hc];
      rewrite covers_tile_window in Hc;
      destruct (decide (axis_covers W tile_size x i));
      destruct (decide (axis_covers H tile_size y j)); simpl; tauto || lia.
Qed.

Lemma grid_count cols rows x y :
  length (filter (λ w, covers w x y) (grid W H tile_size cols rows)) =
  (length (filter (axis_covers W tile_size x) cols) *
   length (filter (axis_covers H tile_size y) rows))%nat.
Proof.
  unfold grid. induction cols as [| i cols IH]; [done |].
  rewrite bind_cons, filter_app, length_app, IH, column_count.
  rewrite filter_cons.
  destruct (decide (axis_covers W tile_size x i)); simpl; lia.
Qed.

Lemma tile_windows_grid :
  0 < tile_size →
  ∃ cols rows,
    PyRange.range 0 W tile_size = inl cols ∧
    PyRange.range 0 H tile_size = inl rows ∧
    tile_windows W H tile_size = inl (grid W H tile_size cols rows).
Proof.
  intros Hts. unfold tile_windows.
  rewrite !range_pos_eq by done. eauto.
Qed.

End Grid.

(** C1. For positive [W], [H] and [tile_size] the windows of the loop nest
    of [generate_tiles] tile the rectangle [[0,W) x [0,H)] exactly: every
    window is non-empty and inside the parent, every pixel of the rectangle
    lies in exactly one window of the enumeration, and the pixels covered
    by the windows are exactly those of the rectangle. *)
Theorem tiling_exact W H tile_size :
  0 < W → 0 < H → 0 < tile_size →
  ∃ ws, tile_windows W H tile_size = inl ws ∧
    (∀ w, w ∈ ws →
       0 < width w ∧ 0 < height w ∧ 0 ≤ col_off w ∧ 0 ≤ row_off w ∧
       col_off w + width w ≤ W ∧ row_off w + height w ≤ H) ∧
    (∀ x y, 0 ≤ x < W → 0 ≤ y < H →
       length (filter (λ w, covers w x y) ws) = 1%nat) ∧
    (∀ x y, (∃ w, w ∈ ws ∧ covers w x y) ↔ 0 ≤ x < W ∧ 0 ≤ y < H).
Proof.
  intros HW HH Hts.
  destruct (tile_windows_grid W H tile_size Hts) as (cols & rows & Hc & Hr & Hws).
  exists (grid W H tile_size cols rows). split; [done |].
  assert (∀ w, w ∈ grid W H tile_size cols rows →
            0 < width w ∧ 0 < height w ∧ 0 ≤ col_off w ∧ 0 ≤ row_off w ∧
            col_off w + width w ≤ W ∧ row_off w + height w ≤ H) as Hin.
  { intros w (i & j & Hi & Hj & ->)%elem_of_grid.
    pose proof (axis_extent W tile_size Hts cols Hc i Hi).
    pose proof (axis_extent H tile_size Hts rows Hr j Hj).
    simpl. lia. }
  assert (∀ x y, 0 ≤ x < W → 0 ≤ y < H →
            length (filter (λ w, covers w x y) (grid W H tile_size cols rows))
            = 1%nat) as Hone.
  { intros x y Hx Hy. rewrite grid_count.
    rewrite (axis_covers_once W tile_size Hts cols Hc x Hx).
    by rewrite (axis_covers_once H tile_size Hts rows Hr y Hy). }
  split; [done |]. split; [done |].
  intros x y. split.
  - intros (w & Hw & Hcov). specialize (Hin w Hw).
    unfold covers in Hcov. lia.
  - intros [Hx Hy]. specialize (Hone x y Hx Hy).
    destruct (filter (λ w, covers w x y) (grid W H tile_size cols rows))
      as [| w l] eqn:Hf; [done |].
    assert (w ∈ filter (λ w, covers w x y) (grid W H tile_size cols rows)) as Hw
      by (rewrite Hf; left).
    apply list_elem_of_filter in Hw as [Hcov Hw]. eauto.
Qed.

Lemma tiling_exact_witness :
  ∃ ws, tile_windows 5 3 3 = inl ws ∧
    (∀ w, w ∈ ws →
       0 < width w ∧ 0 < height w ∧ 0 ≤ col_off w ∧ 0 ≤ row_off w ∧
       col_off w + width w ≤ 5 ∧ row_off w + height w ≤ 3) ∧
    (∀ x y, 0 ≤ x < 5 → 0 ≤ y < 3 →
       length (filter (λ w, covers w x y) ws) = 1%nat) ∧
    (∀ x y, (∃ w, w ∈ ws ∧ covers w x y) ↔ 0 ≤ x < 5 ∧ 0 ≤ y < 3).
Proof. apply (tiling_exact 5 3 3); lia. Defined.

(** ** Enumeration order *)

Lemma StronglySorted_lookup_lt {A} (R : relation A) (l : list A) p q a b :
  StronglySorted R l → l !! p = Some a → l !! q = Some b → (p < q)%nat → R a b.
Proof.
  intros Hs. revert p q. induction Hs as [| x l Hs IH Hall]; intros p q Hp Hq Hpq.
  - done.
  - destruct q as [| q]; [lia |]. simpl in Hq. destruct p as [| p].
    + simpl in Hp. injection Hp as ->.
      rewrite Forall_forall in Hall. apply Hall.
      by eapply list_elem_of_lookup_2.
    + simpl in Hp. apply (IH p q); [done | done | lia].
Qed.

Lemma grid_sorted W H tile_size cols rows :
  StronglySorted Z.lt cols → StronglySorted Z.lt rows →
  StronglySorted emitted_before (grid W H tile_size cols rows).
Proof.
  intros Hc Hr. unfold grid. induction Hc as [| i cols Hc IH Hall].
  - constructor.
  - rewrite bind_cons. apply StronglySorted_app. split_and!.
    + intros a b Ha Hb.
      apply list_elem_of_bind in Ha as (j & ->%list_elem_of_singleton & Hj).
      apply (elem_of_grid W H tile_size) in Hb as (i' & j' & Hi' & Hj' & ->).
      left. simpl. rewrite Forall_forall in Hall. by apply Hall.
    + clear IH Hall. induction Hr as [| j rows Hr IHr Hallr].
      * constructor.
      * rewrite bind_cons. simpl. constructor; [apply IHr |].
        apply Forall_forall. intros b Hb.
        apply list_elem_of_bind in Hb as (j' & ->%list_elem_of_singleton & Hj').
        right. simpl. split; [done |].
        rewrite Forall_forall in Hallr. by apply Hallr.
    + apply IH.
Qed.

(** C4. For a positive tile size the windows are enumerated in
    column-major-outer order: of two windows of the enumeration the one
    met first is the one with the smaller column offset or, within one
    column offset, the smaller row offset; so all windows of a column
    offset come, by increasing row offset, before any window of the next
    column offset. *)
Theorem enumeration_order W H tile_size :
  0 < tile_size →
  ∃ ws, tile_windows W H tile_size = inl ws ∧
    ∀ p q wp wq, ws !! p = Some wp → ws !! q = Some wq →
      ((p < q)%nat ↔ emitted_before wp wq).
Proof.
  intros Hts.
  destruct (tile_windows_grid W H tile_size Hts) as (cols & rows & Hc & Hr & Hws).
  exists (grid W H tile_size cols rows). split; [done |].
  assert (StronglySorted emitted_before (grid W H tile_size cols rows)) as Hs.
  { apply grid_sorted; by eapply range_sorted. }
  intros p q wp wq Hp Hq. split.
  - by apply StronglySorted_lookup_lt with (l := grid W H tile_size cols rows).
  - intros Hb. destruct (lt_eq_lt_dec p q) as [[Hlt | ->] | Hgt]; [done | |].
    + rewrite Hp in Hq. injection Hq as ->. unfold emitted_before in Hb. lia.
    + pose proof (StronglySorted_lookup_lt _ _ q p wq wp Hs Hq Hp Hgt) as Hb'.
      unfold emitted_before in Hb, Hb'. lia.
Qed.

Lemma enumeration_order_witness :
  ∃ ws, tile_windows 5 7 3 = inl ws ∧
    ∀ p q wp wq, ws !! p = Some wp → ws !! q = Some wq →
      ((p < q)%nat ↔ emitted_before wp wq).
Proof. apply (enumeration_order 5 7 3). lia. Defined.

(** ** Running loops *)

Section Loops.
Context {L : Type}.

Lemma bind_run {A B} (m : M L A) (k : A → M L B) l w :
  (m ≫= k) l w =
  match m l w with
  | (inl a, l', w') => k a l' w'
  | (inr e, l', w') => (inr e, l', w')
  end.
Proof. done. Qed.

Lemma for_ext {A} (xs : list A) (f g : A → M L unit) :
  (∀ x l w, f x l w = g x l w) → ∀ l w, for_ xs f l w = for_ xs g l w.
Proof.
  intros Hfg. induction xs as [| x xs IH]; intros l w; [done |].
  simpl. rewrite !bind_run, Hfg.
  destruct (g x l w) as [[[[] | e] l'] w']; [apply IH | done].
Qed.

Lemma for_app {A} (xs ys : list A) (f : A → M L unit) l w :
  for_ (xs ++ ys) f l w = (for_ xs f;; for_ ys f) l w.
Proof.
  revert l w. induction xs as [| x xs IH]; intros l w; [done |].
  simpl. rewrite !bind_run.
  destruct (f x l w) as [[[[] | e] l'] w']; [| done].
  rewrite IH. by rewrite bind_run.
Qed.

Lemma for_singleton {A} (x : A) (f : A → M L unit) l w :
  for_ [x] f l w = f x l w.
Proof.
  simpl. rewrite bind_run.
  by destruct (f x l w) as [[[[] | e] l'] w'].
Qed.

Lemma for_bind {A B} (xs : list A) (g : A → list B) (f : B → M L unit) l w :
  for_ (xs ≫= g) f l w = for_ xs (λ x, for_ (g x) f) l w.
Proof.
  revert l w. induction xs as [| x xs IH]; intros l w; [done |].
  rewrite bind_cons, for_app. simpl. rewrite !bind_run.
  destruct (for_ (g x) f l w) as [[[[] | e] l'] w']; [apply IH | done].
Qed.

End Loops.

(** The two nested loops of [generate_tiles] run the loop body once for
    every window of the grid, in the order of the grid. *)
Lemma generate_tiles_loop env self src output_folder tile_size tiled_arg
    cols rows l w :
  for_ cols (λ i, for_ rows (λ j,
    tile_body env self src output_folder tile_size tiled_arg i j)) l w =
  for_ (grid (r_width self) (r_height self) tile_size cols rows)
    (λ win, tile_body env self src output_folder tile_size tiled_arg
              (col_off win) (row_off win)) l w.
Proof.
  unfold grid. rewrite for_bind. apply for_ext. clear l w. intros i l w.
  rewrite for_bind. apply for_ext. clear l w. intros j l w.
  by rewrite for_singleton.
Qed.

(** ** Tile transforms *)

(** C2. The transform derived for a window (in particular for every window
    of the tiling) maps tile pixel (0,0) to the world coordinate to which
    the parent transform maps pixel (col_off, row_off), and keeps the
    parent's scale and rotation coefficients. *)
Theorem tile_transform_origin (T : Affine) (w : Window) :
  let T' := window_transform T w in
  let parent := pixel_to_world T (inject_Z (col_off w)) (inject_Z (row_off w)) in
  ((pixel_to_world T' 0 0).1 == parent.1)%Q ∧
  ((pixel_to_world T' 0 0).2 == parent.2)%Q ∧
  af_a T' = af_a T ∧ af_b T' = af_b T ∧ af_d T' = af_d T ∧ af_e T' = af_e T.
Proof.
  simpl. split_and!; try reflexivity; ring.
Qed.

(** The profile stored with a tile carries that derived transform. *)
Lemma tile_body_transform env self src output_folder tile_size tiled_arg
    i j data w :
  rio_read env src (tile_window (r_width self) (r_height self) tile_size i j)
    = Some data →
  rio_create env (os_path_join output_folder (tile_name self i j)) = true →
  ∃ r w' profile rest,
    tile_body env self src output_folder tile_size tiled_arg i j tt w
      = (r, tt, w') ∧
    trace w' =
      trace w ++
      EvOpenW (next_handle w)
        (os_path_join output_folder (tile_name self i j)) profile :: rest ∧
    profile !! "transform" =
      Some (VAffine (window_transform (ds_transform src)
        (tile_window (r_width self) (r_height self) tile_size i j))).
Proof.
  intros Hread Hcreate. unfold tile_body, tile_window in *.
  cbv zeta in *. rewrite bind_run. unfold rio_read_window. rewrite Hread.
  cbn [mret M_ret]. unfold save. rewrite bind_run.
  unfold rio_open_w. rewrite Hcreate. cbv zeta.
  unfold try_finally, rio_write_to, rio_close, emit, raise.
  destruct (rio_write env _ data); cbn [next_handle paths trace];
    eexists _, _, _, _; (split_and!; [reflexivity | | ]).
  - rewrite <- !app_assoc. reflexivity.
  - unfold dict_update. simpl. by simplify_map_eq.
  - rewrite <- !app_assoc. reflexivity.
  - unfold dict_update. simpl. by simplify_map_eq.
Qed.

(** ** The 2500 x 2500 raster at tile size 1024 *)

(** C9 as stated fails: the sizes, read as width x height, do not come in
    the listed order (the third window is 1024 wide and 452 high). *)
Lemma edge_tiles_2500_listed_order_fails :
  ¬ ∃ ws, tile_windows 2500 2500 1024 = inl ws ∧
      window_sizes ws =
        [(1024, 1024); (1024, 1024); (452, 1024);
         (1024, 1024); (1024, 1024); (452, 1024);
         (1024, 452); (1024, 452); (452, 452)].
Proof. intros (ws & [= <-] & Hs). vm_compute in Hs. discriminate Hs. Qed.

(** C9, amended. Tiling 2500 x 2500 at tile size 1024 yields nine windows
    on a 3 x 3 grid whose (width, height) sizes are, in enumeration order,
    1024x1024, 1024x1024, 1024x452, 1024x1024, 1024x1024, 1024x452,
    452x1024, 452x1024, 452x452. *)
Theorem edge_tiles_2500 :
  ∃ ws, tile_windows 2500 2500 1024 = inl ws ∧
    length ws = 9%nat ∧
    window_sizes ws =
      [(1024, 1024); (1024, 1024); (1024, 452);
       (1024, 1024); (1024, 1024); (1024, 452);
       (452, 1024); (452, 1024); (452, 452)] ∧
    (λ w, (col_off w, row_off w)) <$> ws =
      [(0, 0); (0, 1024); (0, 2048);
       (1024, 0); (1024, 1024); (1024, 2048);
       (2048, 0); (2048, 1024); (2048, 2048)].
Proof. eexists. split; [reflexivity |]. by vm_compute. Qed.

(** ** Tile names *)

(** C8 on the code: [_ext] already starts with a dot and the format
    string puts another one before it, so the tile at offsets (3, 0) is
    written as [tile_x00003_y00000..tif], with two dots, and not as
    [tile_x00003_y00000.tif]. *)
Theorem tile_names_double_dot :
  _ext demo_raster = ".tif" ∧
  tile_name demo_raster 3 0 = "tile_x00003_y00000..tif" ∧
  tile_name demo_raster 3 0 ≠ "tile_x00003_y00000.tif" ∧
  created (trace (generate_tiles (demo_env []) demo_raster "out" 3 false
                    "JPEG" "RGB" demo_world).2) =
    ["out/tile_x00000_y00000..tif"; "out/tile_x00003_y00000..tif"].
Proof. by vm_compute. Qed.

(** ** Merging *)

(** C7. When the listing of the input folder is empty, [merge_tiles]
    returns normally and leaves the world as it was: no handle is
    allocated, no path is created and nothing is recorded on the trace
    (no open, no write, no message). *)
Theorem merge_empty_noop env self input_folder output_path w :
  glob env (os_path_join input_folder "*.tif") = [] →
  merge_tiles env self input_folder output_path w = (inl tt, w).
Proof. intros Hg. unfold merge_tiles. by rewrite Hg. Qed.

Lemma merge_empty_noop_witness :
  merge_tiles (demo_env []) demo_raster "tiles" "mosaic.tif" demo_world
    = (inl tt, demo_world).
Proof. apply (merge_empty_noop (demo_env [])). reflexivity. Defined.

Section MergeRuns.
Variable env : Env.

(** The opening loop: it stops at the first file that does not open;
    the inputs opened until then are on [src_files_to_mosaic] and on the
    trace. *)
Lemma open_loop_run (filepaths : list string) :
  ∀ (l : merge_locals) w, ∃ ops r,
    open_inputs env filepaths l w =
    (r, l ++ (opened_src <$> ops),
     mkWorld (next_handle w + length ops) (paths w)
             (trace w ++ (open_event <$> ops))) ∧
    opened_handle <$> ops = seq (next_handle w) (length ops) ∧
    (∀ dss, mapM (rio_open env) filepaths = Some dss →
       r = inl tt ∧
       ops = zip (zip (seq (next_handle w) (length filepaths)) filepaths) dss).
Proof.
  unfold open_inputs. induction filepaths as [| fp fps IH]; intros l w.
  - exists [], (inl tt). split_and!.
    + simpl. rewrite !app_nil_r, Nat.add_0_r. by destruct w.
    + done.
    + intros dss [= <-]. done.
  - simpl. rewrite bind_run. unfold rio_open_r at 1.
    destruct (rio_open env fp) as [ds |] eqn:Hopen.
    + cbv zeta. rewrite bind_run. unfold get_local at 1.
      cbv beta iota. rewrite bind_run. unfold set_local at 1. cbv beta iota.
      destruct (IH (l ++ [(next_handle w, ds)])
                   (mkWorld (S (next_handle w)) (paths w)
                      (trace w ++ [EvOpenR (next_handle w) fp])))
        as (ops & r & Hrun & Hhs & Hok).
      exists ((next_handle w, fp, ds) :: ops), r. split_and!.
      * rewrite Hrun. cbn [next_handle paths trace length fmap list_fmap].
        rewrite <- !app_assoc. simpl. do 2 f_equal. lia.
      * rewrite fmap_cons, Hhs. reflexivity.
      * intros dss Hm. simpl in Hm.
        destruct (mapM (rio_open env) fps) as [dss' |] eqn:Hm'; [| done].
        injection Hm as <-. destruct (Hok dss' eq_refl) as [-> ->].
        done.
    + exists [], (inr (RasterioIOError fp)). split_and!.
      * simpl. rewrite !app_nil_r, Nat.add_0_r. by destruct w.
      * done.
      * intros dss Hm. by simpl in Hm.
Qed.

(** The [finally] block closes every input on [src_files_to_mosaic]. *)
Lemma close_inputs_run (ops : list (nat * string * Dataset)) w :
  close_inputs (opened_src <$> ops) w =
  (inl tt, opened_src <$> ops,
   mkWorld (next_handle w) (paths w) (trace w ++ (close_event <$> ops))).
Proof.
  unfold close_inputs. rewrite bind_run. unfold get_local. cbv beta iota.
  generalize (opened_src <$> ops) at 2 3 as l.
  revert w. induction ops as [| t ops IH]; intros w l.
  - simpl. rewrite app_nil_r. by destruct w.
  - simpl. rewrite bind_run. unfold rio_close at 1, emit. cbv beta iota.
    rewrite IH. cbn [next_handle paths trace]. by rewrite <- app_assoc.
Qed.

End MergeRuns.

(** Unfolds the primitives of the monad at the head of a run. *)
Ltac run_prims :=
  repeat (progress (
    try rewrite bind_run;
    unfold try_finally, try_except, get_local, set_local, emit, raise,
      lift_result, rio_close, rio_write_to, rio_open_w, rio_merge_all,
      rio_read_window, path_exists, makedirs, save;
    cbn [mret M_ret next_handle paths trace];
    cbv beta iota zeta)).

(** The second part of the [try] block opens no input; when everything
    succeeds it creates the output with the derived metadata, writes the
    mosaic and closes the output. *)
Lemma write_mosaic_run env self output_path (l : merge_locals) w :
  ∃ r mid nh ps,
    write_mosaic env self output_path l w =
      (r, l, mkWorld nh ps (trace w ++ mid)) ∧
    Forall not_open_r mid ∧
    (∀ first mosaic out_trans,
       l !! 0%nat = Some first →
       rio_merge env (snd <$> l) = Some (mosaic, out_trans) →
       rio_create env output_path = true →
       rio_write env output_path mosaic = true →
       r = inl tt ∧
       mid = [EvOpenW (next_handle w) output_path
                (merge_out_meta self first.2 mosaic out_trans);
              EvWrite (next_handle w) mosaic;
              EvClose (next_handle w)]).
Proof.
  unfold write_mosaic. run_prims.
  destruct (rio_merge env (snd <$> l)) as [[mosaic out_trans] |]; run_prims.
  2: { exists (inr MergeError), [], (next_handle w), (paths w).
       rewrite app_nil_r. by destruct w. }
  destruct (l !! 0%nat) as [first |]; run_prims.
  2: { exists (inr IndexError), [], (next_handle w), (paths w).
       rewrite app_nil_r. by destruct w. }
  destruct (rio_create env output_path); run_prims.
  2: { exists (inr (RasterioIOError output_path)), [], (next_handle w), (paths w).
       rewrite app_nil_r. by destruct w. }
  destruct (rio_write env output_path mosaic) eqn:Hwrite; run_prims.
  - eexists _, _, _, _. split_and!.
    + rewrite <- !app_assoc. reflexivity.
    + repeat constructor.
    + by intros ??? [= <-] [= <- <-] _ _.
  - eexists _, _, _, _. split_and!.
    + rewrite <- !app_assoc. reflexivity.
    + repeat constructor.
    + intros ??? [= <-] [= <- <-] _ Hw. congruence.
Qed.

(** Shape of every run of [merge_tiles]: it returns normally; its trace
    is the opening of some inputs, then events that open no input, then
    the closing of exactly the inputs that were opened. *)
Lemma merge_tiles_run env self input_folder output_path w :
  ∃ ops mid w',
    merge_tiles env self input_folder output_path w = (inl tt, w') ∧
    trace w' =
      trace w ++ (open_event <$> ops) ++ mid ++ (close_event <$> ops) ∧
    Forall not_open_r mid ∧
    opened_handle <$> ops = seq (next_handle w) (length ops) ∧
    (∀ dss mosaic out_trans,
       let filepaths := glob env (os_path_join input_folder "*.tif") in
       filepaths ≠ [] →
       mapM (rio_open env) filepaths = Some dss →
       rio_merge env dss = Some (mosaic, out_trans) →
       rio_create env output_path = true →
       rio_write env output_path mosaic = true →
       ops = zip (zip (seq (next_handle w) (length filepaths)) filepaths) dss ∧
       ∃ first, dss !! 0%nat = Some first ∧
         mid = [EvOpenW (next_handle w + length filepaths) output_path
                  (merge_out_meta self first mosaic out_trans);
                EvWrite (next_handle w + length filepaths) mosaic;
                EvClose (next_handle w + length filepaths)]).
Proof.
  unfold merge_tiles. cbv zeta.
  set (filepaths := glob env (os_path_join input_folder "*.tif")).
  destruct (bool_decide (filepaths = [])) eqn:Hempty.
  { exists [], [], w. rewrite app_nil_r. split_and!; try done.
    apply bool_decide_eq_true in Hempty. done. }
  unfold run. unfold try_finally at 1. unfold try_except at 1.
  rewrite bind_run.
  destruct (open_loop_run env filepaths [] w) as (ops & r & Hrun & Hhs & Hall).
  rewrite Hrun. clear Hrun. rewrite app_nil_l. exists ops.
  destruct r as [[] | e].
  - match goal with |- context [write_mosaic _ _ _ ?l ?w1] =>
      destruct (write_mosaic_run env self output_path l w1)
        as (r & mid & nh & ps & Hw & Hmid & Hsucc) end.
    rewrite Hw. clear Hw. cbn [trace next_handle] in *.
    assert (∀ dss mosaic out_trans,
       filepaths ≠ [] →
       mapM (rio_open env) filepaths = Some dss →
       rio_merge env dss = Some (mosaic, out_trans) →
       rio_create env output_path = true →
       rio_write env output_path mosaic = true →
       r = inl tt ∧
       ops = zip (zip (seq (next_handle w) (length filepaths)) filepaths) dss ∧
       ∃ first, dss !! 0%nat = Some first ∧
         mid = [EvOpenW (next_handle w + length filepaths) output_path
                  (merge_out_meta self first mosaic out_trans);
                EvWrite (next_handle w + length filepaths) mosaic;
                EvClose (next_handle w + length filepaths)]) as Hgood.
    { intros dss mosaic out_trans Hne Hm Hmerge Hcreate Hwrite.
      destruct (Hall dss Hm) as [_ Hops].
      pose proof (length_mapM _ _ _ Hm) as Hlen.
      assert (length ops = length filepaths) as Hlo.
      { rewrite Hops, !length_zip, length_seq. lia. }
      assert (snd <$> (opened_src <$> ops) = dss) as Hsnd.
      { rewrite <- list_fmap_compose. rewrite Hops.
        apply snd_zip. rewrite length_zip, length_seq. lia. }
      destruct filepaths as [| fp fps]; [done |].
      destruct dss as [| first dss]; [done |].
      rewrite Hsnd, Hlo in Hsucc.
      assert ((opened_src <$> ops) !! 0%nat = Some (next_handle w, first)) as H0
        by (by rewrite Hops).
      destruct (Hsucc _ _ _ H0 Hmerge Hcreate Hwrite) as [-> ->].
      split_and!; [done | done |]. exists first. done. }
    destruct r as [[] | e].
    + rewrite close_inputs_run. cbn [next_handle paths trace].
      eexists mid, _. split_and!; [reflexivity | | done | done |].
      * by rewrite <- !app_assoc.
      * intros dss mosaic out_trans Hne Hm Hmerge Hcreate Hwrite.
        by destruct (Hgood _ _ _ Hne Hm Hmerge Hcreate Hwrite) as (_ & ? & ?).
    + unfold emit. rewrite close_inputs_run. cbn [next_handle paths trace].
      eexists (mid ++ [EvPrint "Error in merging tiles: " e]), _.
      split_and!; [reflexivity | | | done |].
      * by rewrite <- !app_assoc.
      * apply Forall_app. split; [done | by repeat constructor].
      * intros dss mosaic out_trans Hne Hm Hmerge Hcreate Hwrite.
        by destruct (Hgood _ _ _ Hne Hm Hmerge Hcreate Hwrite) as (? & _).
  - unfold emit. rewrite close_inputs_run. cbn [next_handle paths trace].
    eexists [EvPrint "Error in merging tiles: " e], _.
    split_and!; [reflexivity | | | done |].
    + by rewrite <- !app_assoc.
    + by repeat constructor.
    + intros dss mosaic out_trans Hne Hm Hmerge Hcreate Hwrite.
      by destruct (Hall dss Hm) as [? _].
Qed.

(** In a trace of that shape an opening of an input sits among the
    first events, at the index of the input it opens. *)
Lemma opening_among_inputs (ops : list (nat * string * Dataset)) mid i h p :
  Forall not_open_r mid →
  ((open_event <$> ops) ++ mid ++ (close_event <$> ops)) !! i
    = Some (EvOpenR h p) →
  ∃ t, ops !! i = Some t ∧ h = opened_handle t.
Proof.
  intros Hmid Hi.
  destruct (decide (i < length ops)%nat) as [Hlt | Hge].
  - rewrite lookup_app_l in Hi by (by rewrite length_fmap).
    rewrite list_lookup_fmap in Hi.
    destruct (ops !! i) as [t |] eqn:Ht; [| done].
    injection Hi as Hh Hp. eauto.
  - rewrite lookup_app_r in Hi by (rewrite length_fmap; lia).
    apply lookup_app_Some in Hi as [Hi | [_ Hi]].
    + rewrite Forall_forall in Hmid.
      by apply list_elem_of_lookup_2, Hmid in Hi.
    + rewrite list_lookup_fmap in Hi.
      by destruct (ops !! _).
Qed.

(** C6. On every run of [merge_tiles], whatever opens, merges or writes
    fail, each input handle opened during the call is closed later in the
    same call, and the call returns normally ([close] itself does not
    raise).  The handles opened during the call are pairwise distinct, so
    each closing answers one opening. *)
Theorem merge_closes_inputs env self input_folder output_path w :
  ∃ new w',
    merge_tiles env self input_folder output_path w = (inl tt, w') ∧
    trace w' = trace w ++ new ∧
    (∀ i h p, new !! i = Some (EvOpenR h p) →
       ∃ j, (i < j)%nat ∧ new !! j = Some (EvClose h)) ∧
    (∀ i i' h p p', new !! i = Some (EvOpenR h p) →
       new !! i' = Some (EvOpenR h p') → i = i').
Proof.
  destruct (merge_tiles_run env self input_folder output_path w)
    as (ops & mid & w' & Hrun & Htrace & Hmid & Hhs & _).
  exists ((open_event <$> ops) ++ mid ++ (close_event <$> ops)), w'.
  split_and!; [done | done | |].
  - intros i h p Hi.
    destruct (opening_among_inputs ops mid i h p Hmid Hi) as (t & Ht & Hh).
    pose proof (lookup_lt_Some _ _ _ Ht) as Hlt.
    exists (length (open_event <$> ops) + (length mid + i))%nat. split.
    + rewrite length_fmap. lia.
    + rewrite lookup_app_r by lia.
      replace (_ + _ - _)%nat with (length mid + i)%nat by lia.
      rewrite lookup_app_r by lia.
      replace (_ + _ - _)%nat with i by lia.
      rewrite list_lookup_fmap, Ht. simpl. unfold close_event.
      by rewrite Hh.
  - intros i i' h p p' Hi Hi'.
    destruct (opening_among_inputs ops mid i h p Hmid Hi) as (t & Ht & Hh).
    destruct (opening_among_inputs ops mid i' h p' Hmid Hi') as (t' & Ht' & Hh').
    assert ((opened_handle <$> ops) !! i = Some h) as Hs
      by (by rewrite list_lookup_fmap, Ht, Hh).
    assert ((opened_handle <$> ops) !! i' = Some h) as Hs'
      by (by rewrite list_lookup_fmap, Ht', Hh').
    rewrite Hhs in Hs, Hs'.
    apply lookup_seq in Hs as [Hs _]. apply lookup_seq in Hs' as [Hs' _]. lia.
Qed.

(** The second of three inputs cannot be opened: the first is closed, the
    third is never opened. *)
Example merge_second_of_three_unreadable :
  let env := failing_env ["a.tif"; "b.tif"; "c.tif"] "b.tif" in
  let run := merge_tiles env demo_raster "tiles" "mosaic.tif" demo_world in
  run.1 = inl tt ∧
  trace run.2 =
    [EvOpenR 0 "a.tif";
     EvPrint "Error in merging tiles: " (RasterioIOError "b.tif");
     EvClose 0].
Proof. by vm_compute. Qed.

(** C10. On a successful merge the metadata of the output is the [meta]
    of the first opened input, overridden as follows: [driver] is
    ["GTiff"]; [height], [width] and [transform] come from the computed
    mosaic; [compress], [tiled], [blockxsize] and [blockysize] come from
    the [Raster] on which [merge_tiles] was called.  Every other key is
    that of the first input. *)
Theorem merge_output_metadata env self input_folder output_path w
    dss mosaic out_trans :
  glob env (os_path_join input_folder "*.tif") ≠ [] →
  mapM (rio_open env) (glob env (os_path_join input_folder "*.tif"))
    = Some dss →
  rio_merge env dss = Some (mosaic, out_trans) →
  rio_create env output_path = true →
  rio_write env output_path mosaic = true →
  ∃ first w' h out_meta ops,
    dss !! 0%nat = Some first ∧
    merge_tiles env self input_folder output_path w = (inl tt, w') ∧
    trace w' =
      trace w ++ (open_event <$> ops) ++
      [EvOpenW h output_path out_meta; EvWrite h mosaic; EvClose h] ++
      (close_event <$> ops) ∧
    out_meta !! "driver" = Some (VStr "GTiff") ∧
    out_meta !! "height" = Some (VInt (nd_shape mosaic).1.2) ∧
    out_meta !! "width" = Some (VInt (nd_shape mosaic).2) ∧
    out_meta !! "transform" = Some (VAffine out_trans) ∧
    out_meta !! "compress" = Some (compression self) ∧
    out_meta !! "tiled" = Some (VBool (tiled self)) ∧
    out_meta !! "blockxsize" = Some (blockxsize self) ∧
    out_meta !! "blockysize" = Some (blockysize self) ∧
    ∀ k, k ∉ ["driver"; "height"; "width"; "transform"; "compress"; "tiled";
              "blockxsize"; "blockysize"] →
         out_meta !! k = ds_meta first !! k.
Proof.
  intros Hne Hm Hmerge Hcreate Hwrite.
  destruct (merge_tiles_run env self input_folder output_path w)
    as (ops & mid & w' & Hrun & Htrace & _ & _ & Hgood).
  destruct (Hgood dss mosaic out_trans Hne Hm Hmerge Hcreate Hwrite)
    as (_ & first & Hfirst & ->).
  eexists first, w', _, _, ops.
  split_and!; [done | done | exact Htrace | ..];
    unfold merge_out_meta, dict_update; simpl.
  1-8: by simplify_map_eq.
  intros k Hk. rewrite !not_elem_of_cons in Hk.
  destruct Hk as (? & ? & ? & ? & ? & ? & ? & ? & _).
  by rewrite !lookup_insert_ne.
Qed.

Lemma merge_output_metadata_witness :
  ∃ first w' h out_meta ops,
    [demo_dataset "a.tif"; demo_dataset "b.tif"] !! 0%nat = Some first ∧
    merge_tiles (demo_env ["a.tif"; "b.tif"]) demo_raster "tiles" "mosaic.tif"
      demo_world = (inl tt, w') ∧
    trace w' =
      trace demo_world ++ (open_event <$> ops) ++
      [EvOpenW h "mosaic.tif" out_meta;
       EvWrite h (mkNDArray (1, 3, 5) []); EvClose h] ++
      (close_event <$> ops) ∧
    out_meta !! "driver" = Some (VStr "GTiff") ∧
    out_meta !! "height" = Some (VInt (nd_shape (mkNDArray (1, 3, 5) [])).1.2) ∧
    out_meta !! "width" = Some (VInt (nd_shape (mkNDArray (1, 3, 5) [])).2) ∧
    out_meta !! "transform" = Some (VAffine demo_transform) ∧
    out_meta !! "compress" = Some (compression demo_raster) ∧
    out_meta !! "tiled" = Some (VBool (tiled demo_raster)) ∧
    out_meta !! "blockxsize" = Some (blockxsize demo_raster) ∧
    out_meta !! "blockysize" = Some (blockysize demo_raster) ∧
    ∀ k, k ∉ ["driver"; "height"; "width"; "transform"; "compress"; "tiled";
              "blockxsize"; "blockysize"] →
         out_meta !! k = ds_meta first !! k.
Proof.
  apply (merge_output_metadata (demo_env ["a.tif"; "b.tif"]) demo_raster
           "tiles" "mosaic.tif" demo_world
           [demo_dataset "a.tif"; demo_dataset "b.tif"]
           (mkNDArray (1, 3, 5) []) demo_transform);
    [discriminate | reflexivity | reflexivity | reflexivity | reflexivity].
Defined.

(** [generate_tiles] runs the loop body once per window of [tile_windows],
    in that order. *)
Lemma generate_tiles_windows env self output_folder tile_size tiled_arg
    compress photometric ws w :
  tile_windows (r_width self) (r_height self) tile_size = inl ws →
  generate_tiles env self output_folder tile_size tiled_arg compress photometric w =
  run tt (
    ex ← path_exists output_folder;
    (if (ex : bool) then mret tt else makedirs env output_folder);;
    '(hsrc, src) ← rio_open_r env (filepath self);
    try_finally
      (for_ ws (λ win,
         tile_body env self src output_folder tile_size tiled_arg
           (col_off win) (row_off win)))
      (rio_close hsrc)) w.
Proof.
  unfold tile_windows, generate_tiles. intros Hws.
  destruct (PyRange.range 0 (r_width self) tile_size) as [cols | e]; [| done].
  destruct (PyRange.range 0 (r_height self) tile_size) as [rows | e]; [| done].
  injection Hws as <-. unfold run. rewrite !bind_run.
  destruct (path_exists output_folder tt w) as [[[ex | e] []] w1]; [| done].
  rewrite !bind_run.
  destruct ((if ex then mret tt else makedirs env output_folder) tt w1)
    as [[[[] | e] []] w2]; [| done].
  rewrite !bind_run.
  destruct (rio_open_r env (filepath self) tt w2) as [[[[hsrc src] | e] []] w3];
    [| done].
  unfold try_finally, lift_result. rewrite !bind_run.
  by rewrite generate_tiles_loop.
Qed.

Lemma range_zero_step start stop :
  PyRange.range start stop 0 =
    inr (ValueError "range() arg 3 must not be zero").
Proof. done. Qed.


Lemma created_app t1 t2 : created (t1 ++ t2) = created t1 ++ created t2.
Proof. apply omap_app. Qed.

(** ** Tile size *)




(** * Further properties *)
Section TileRuns.
Variables (env : Env) (self : Raster) (src : Dataset).
Variables (output_folder : string) (tile_size : Z) (tiled_arg : bool).

(** One pass of the loop body is [tile_attempt] at the next free handle. *)
Lemma tile_body_run i j w :
  let win := tile_window (r_width self) (r_height self) tile_size i j in
  let out := tile_attempt env self src output_folder tiled_arg (next_handle w) win in
  tile_body env self src output_folder tile_size tiled_arg i j tt w =
  (out.1, tt,
   mkWorld (next_handle w + length (created out.2))
           (list_to_set (created out.2) ∪ paths w)
           (trace w ++ out.2)).
Proof.
  cbv zeta. unfold tile_body, tile_attempt, tile_window, tile_path, tile_profile.
  cbv zeta. cbn [col_off row_off width height].
  run_prims.
  destruct (rio_read env src _) as [data |]; run_prims.
  2: { simpl. rewrite app_nil_r, Nat.add_0_r, union_empty_l_L. by destruct w. }
  destruct (rio_create env _); run_prims.
  2: { simpl. rewrite app_nil_r, Nat.add_0_r, union_empty_l_L. by destruct w. }
  destruct (rio_write env _ data); run_prims; simpl;
    rewrite <- !app_assoc; simpl; do 2 f_equal; try lia;
    by rewrite (right_id_L ∅ (∪)).
Qed.

Lemma tiles_loop_run ws : ∀ w,
  Forall (λ win, win = tile_window (r_width self) (r_height self) tile_size (col_off win) (row_off win)) ws →
  let out := tiles_run env self src output_folder tiled_arg (next_handle w) ws in
  for_ ws (λ win, tile_body env self src output_folder tile_size tiled_arg
                    (col_off win) (row_off win)) tt w =
  (out.1, tt,
   mkWorld (next_handle w + length (created out.2))
           (list_to_set (created out.2) ∪ paths w)
           (trace w ++ out.2)).
Proof.
  induction ws as [| win ws IH]; intros w Hws; cbv zeta.
  - simpl. rewrite app_nil_r, Nat.add_0_r, union_empty_l_L. by destruct w.
  - apply Forall_cons in Hws as [Hwin Hws].
    cbn [for_ tiles_run]. rewrite bind_run, tile_body_run. rewrite <- Hwin.
    destruct (tile_attempt env self src output_folder tiled_arg (next_handle w) win)
      as [[[] | e] evs] eqn:Hatt; cbn [fst snd]; [| done].
    rewrite IH by done. cbn [next_handle paths trace].
    assert (length (created evs) = 1%nat ∧ ∃ p, created evs = [p]) as [Hlen [p Hp]].
    { unfold tile_attempt in Hatt.
      destruct (rio_read env src win); [| done].
      destruct (rio_create env _); [| done].
      destruct (rio_write env _ _); [| done].
      injection Hatt as <-. eauto. }
    rewrite Hlen. replace (next_handle w + 1)%nat with (S (next_handle w)) by lia.
    destruct (tiles_run env self src output_folder tiled_arg (S (next_handle w)) ws)
      as [r evs'].
    cbn [fst snd]. rewrite created_app, length_app, Hlen, <- app_assoc.
    do 2 f_equal; [lia |]. rewrite Hp. simpl.
    rewrite (right_id_L ∅ (∪)), (assoc_L (∪)).
    by rewrite (comm_L (∪) (list_to_set (created evs')) {[p]}).
Qed.

End TileRuns.

(** The windows of [tile_windows] are those the loop body builds from
    their own offsets. *)
Lemma tile_windows_form W H tile_size ws :
  tile_windows W H tile_size = inl ws →
  Forall (λ win, win = tile_window W H tile_size (col_off win) (row_off win)) ws.
Proof.
  unfold tile_windows.
  destruct (PyRange.range 0 W tile_size) as [cols | e]; [| done].
  destruct (PyRange.range 0 H tile_size) as [rows | e]; [| done].
  intros [= <-]. apply Forall_forall.
  by intros win (i & j & _ & _ & ->)%elem_of_grid.
Qed.

(** [tile_windows] raises only for a zero tile size. *)
Lemma tile_windows_raises W H tile_size e :
  tile_windows W H tile_size = inr e →
  tile_size = 0 ∧ e = ValueError "range() arg 3 must not be zero".
Proof.
  unfold tile_windows, PyRange.range.
  destruct (decide (tile_size = 0)); [| done]. by intros [= <-].
Qed.

(** Every run of [generate_tiles], in terms of [tiles_run]. *)
Lemma generate_tiles_run env self output_folder tile_size tiled_arg
    compress photometric w :
  let present := bool_decide (output_folder ≠ "" ∧ output_folder ∈ paths w) in
  let mk := if present then [] else [EvMakedirs output_folder] in
  let paths1 := if present then paths w else {[output_folder]} ∪ paths w in
  let h := next_handle w in
  generate_tiles env self output_folder tile_size tiled_arg compress
    photometric w =
  if folder_ready env w output_folder then
    match rio_open env (filepath self) with
    | None =>
      (inr (RasterioIOError (filepath self)),
       mkWorld h paths1 (trace w ++ mk))
    | Some src =>
      match tile_windows (r_width self) (r_height self) tile_size with
      | inr e =>
        (inr e,
         mkWorld (S h) paths1
           (trace w ++ mk ++ [EvOpenR h (filepath self); EvClose h]))
      | inl ws =>
        let out := tiles_run env self src output_folder tiled_arg (S h) ws in
        (out.1,
         mkWorld (S h + length (created out.2))
           (list_to_set (created out.2) ∪ paths1)
           (trace w ++ mk ++
            EvOpenR h (filepath self) :: out.2 ++ [EvClose h]))
      end
    end
  else (inr (OSError output_folder), w).
Proof.
  cbv zeta. unfold folder_ready.
  destruct (tile_windows (r_width self) (r_height self) tile_size)
    as [ws | e] eqn:Hws.
  - rewrite (generate_tiles_windows _ _ _ _ _ _ _ ws w Hws).
    pose proof (tile_windows_form _ _ _ _ Hws) as Hform.
    unfold run. run_prims.
    destruct (bool_decide (output_folder ≠ "" ∧ output_folder ∈ paths w));
      [| destruct (bool_decide (output_folder ≠ "") &&
                   fs_makedirs env output_folder)];
      cbn [orb]; run_prims; [| | done];
      unfold rio_open_r; destruct (rio_open env (filepath self)) as [src |];
      run_prims; rewrite ?app_nil_r.
    + rewrite (tiles_loop_run env self src _ _ _ ws _ Hform).
      cbn [next_handle paths trace fst snd]. rewrite <- ?app_assoc. done.
    + by destruct w.
    + rewrite (tiles_loop_run env self src _ _ _ ws _ Hform).
      cbn [next_handle paths trace fst snd]. rewrite <- ?app_assoc. done.
    + done.
  - destruct (tile_windows_raises _ _ _ _ Hws) as [-> ->].
    unfold generate_tiles, run. rewrite !range_zero_step. run_prims.
    destruct (bool_decide (output_folder ≠ "" ∧ output_folder ∈ paths w));
      [| destruct (bool_decide (output_folder ≠ "") &&
                   fs_makedirs env output_folder)];
      cbn [orb]; run_prims; [| | done];
      unfold rio_open_r; destruct (rio_open env (filepath self)); run_prims;
      rewrite <- ?app_assoc, ?app_nil_r; (done || by destruct w).
Qed.

Section TilesRunFacts.
Variables (env : Env) (self : Raster) (src : Dataset).
Variables (output_folder : string) (tiled_arg : bool).

Lemma tile_attempt_created h win :
  let out := tile_attempt env self src output_folder tiled_arg h win in
  (out.1 = inl tt → created out.2 = [tile_path self output_folder win]) ∧
  (created out.2 = [] ∨ created out.2 = [tile_path self output_folder win]).
Proof.
  unfold tile_attempt.
  destruct (rio_read env src win); [| by split; [| left]].
  destruct (rio_create env _); [| by split; [| left]].
  destruct (rio_write env _ _); by split; [| right].
Qed.

(** The files created by the loop are those of a prefix of the windows. *)
Lemma tiles_run_created ws : ∀ h,
  let out := tiles_run env self src output_folder tiled_arg h ws in
  ∃ k, (k ≤ length ws)%nat ∧
    created out.2 = take k (tile_path self output_folder <$> ws) ∧
    (out.1 = inl tt → k = length ws).
Proof.
  induction ws as [| win ws IH]; intros h; cbv zeta.
  - exists 0%nat. by simpl.
  - cbn [tiles_run].
    destruct (tile_attempt_created h win) as [Hok Hany].
    destruct (tile_attempt env self src output_folder tiled_arg h win)
      as [[[] | e] evs]; cbn [fst snd] in *.
    + destruct (IH (S h)) as (k & Hk & Hc & Hall).
      destruct (tiles_run env self src output_folder tiled_arg (S h) ws)
        as [r evs']. cbn [fst snd] in *.
      exists (S k). split_and!; [simpl; lia | | ].
      * rewrite created_app, (Hok eq_refl), Hc. done.
      * intros Hr. simpl. by rewrite Hall.
    + destruct Hany as [Hc | Hc].
      * exists 0%nat. split_and!; [lia | by rewrite Hc | done].
      * exists 1%nat. split_and!; [simpl; lia | | done].
        rewrite Hc. simpl. by rewrite take_0.
Qed.

(** The loop closes every handle it opens. *)
Lemma tiles_run_closed ws : ∀ h acc,
  Forall (λ x, x < h)%nat acc →
  foldl track acc (tiles_run env self src output_folder tiled_arg h ws).2 = acc.
Proof.
  assert (∀ h acc, Forall (λ x, x < h)%nat acc →
            filter (λ x, x ≠ h) (acc ++ [h]) = acc) as Hfresh.
  { intros h acc Hacc. rewrite filter_app.
    rewrite (filter_cons_False _ h []) by (intros Hne; by apply Hne).
    rewrite filter_nil, app_nil_r.
    induction Hacc as [| x acc Hx Hacc IHacc]; [done |].
    rewrite filter_cons_True by lia. by rewrite IHacc. }
  induction ws as [| win ws IH]; intros h acc Hacc; [done |].
  cbn [tiles_run]. unfold tile_attempt.
  destruct (rio_read env src win) as [data |]; [| done].
  destruct (rio_create env _); [| done].
  destruct (rio_write env _ data).
  - specialize (IH (S h) acc).
    destruct (tiles_run env self src output_folder tiled_arg (S h) ws)
      as [r evs']. cbn [fst snd] in *.
    rewrite foldl_app. cbn [foldl track]. rewrite Hfresh by done.
    apply IH. eapply Forall_impl; [exact Hacc |]. simpl. lia.
  - cbn [snd foldl track]. by apply Hfresh.
Qed.

(** When every read, creation and write succeeds, the loop saves one tile
    per window, in order, and writes to each tile the pixels read for its
    window. *)
Lemma tiles_run_all_saved ws : ∀ h,
  (∀ win, win ∈ ws → ∃ data,
     rio_read env src win = Some data ∧
     rio_create env (tile_path self output_folder win) = true ∧
     rio_write env (tile_path self output_folder win) data = true) →
  let out := tiles_run env self src output_folder tiled_arg h ws in
  out.1 = inl tt ∧
  saved_files out.2 =
    (λ win, (tile_path self output_folder win,
             tile_profile self src tiled_arg win,
             option_list (rio_read env src win))) <$> ws.
Proof.
  induction ws as [| win ws IH]; intros h Hall; cbv zeta; [done |].
  cbn [tiles_run]. unfold tile_attempt.
  destruct (Hall win ltac:(left)) as (data & Hrd & Hc & Hw).
  rewrite Hrd. cbv zeta. rewrite Hc, Hw.
  destruct (IH (S h)) as (Hr & Hsv).
  { intros win' Hin. apply Hall. by right. }
  destruct (tiles_run env self src output_folder tiled_arg (S h) ws)
    as [r evs']. cbn [fst snd] in *.
  split; [done |].
  rewrite fmap_cons, Hrd. cbn [app saved_files].
  f_equal; [| exact Hsv].
  f_equal. cbn [writes_to]. by rewrite !decide_True by done.
Qed.

(** On every run the loop creates its files in the order of the windows,
    each with the tile path and the tile profile of its window. *)
Lemma tiles_run_created_with ws : ∀ h,
  ∃ k, created_with
         (tiles_run env self src output_folder tiled_arg h ws).2 =
       take k ((λ win, (tile_path self output_folder win,
                        tile_profile self src tiled_arg win)) <$> ws).
Proof.
  induction ws as [| win ws IH]; intros h.
  - exists 0%nat. by simpl.
  - cbn [tiles_run]. unfold tile_attempt.
    destruct (rio_read env src win) as [data |]; [| by exists 0%nat].
    destruct (rio_create env _); [| by exists 0%nat].
    destruct (rio_write env _ data); [| by exists 1%nat].
    destruct (IH (S h)) as [k Hk].
    destruct (tiles_run env self src output_folder tiled_arg (S h) ws)
      as [r evs']. cbn [fst snd] in *.
    exists (S k). unfold created_with in *. rewrite omap_app, Hk. done.
Qed.

End TilesRunFacts.

(** ** [generate_tiles] as a whole *)

Lemma saved_files_app_other t t' :
  Forall (λ ev, match ev with
                | EvOpenW _ _ _ | EvWrite _ _ => False
                | _ => True
                end) t' →
  saved_files (t ++ t') = saved_files t.
Proof.
  intros Ht'.
  assert (saved_files t' = []) as Hs.
  { induction Ht' as [| ev t' Hev Ht' IH]; [done |].
    destruct ev; simpl in *; done. }
  assert (∀ h, writes_to h t' = []) as Hw0.
  { intros h. clear Hs. induction Ht' as [| ev t' Hev Ht' IH]; [done |].
    destruct ev; simpl in *; try done. by case_decide. }
  assert (∀ h t0, writes_to h (t0 ++ t') = writes_to h t0) as Hw.
  { intros h t0. induction t0 as [| ev t0 IH]; [by rewrite app_nil_l |].
    destruct ev; cbn [app writes_to]; try done; case_decide; by rewrite ?IH. }
  induction t as [| ev t IH]; [by rewrite app_nil_l |].
  destruct ev; cbn [app saved_files]; try done.
  by rewrite IH, Hw.
Qed.

(** X1. When the output folder exists or can be made, the source opens
    and every window can be read, created and written, [generate_tiles]
    returns normally and has saved exactly one file per window of
    [tile_windows], in enumeration order: each file is created under the
    tile path of its window with the tile profile of its window, and what
    is written through its handle is the pixels read for its window,
    once. *)
Theorem generate_tiles_saves_every_window env self output_folder tile_size
    tiled_arg compress photometric w src ws :
  folder_ready env w output_folder = true →
  rio_open env (filepath self) = Some src →
  tile_windows (r_width self) (r_height self) tile_size = inl ws →
  (∀ win, win ∈ ws → ∃ data,
     rio_read env src win = Some data ∧
     rio_create env (tile_path self output_folder win) = true ∧
     rio_write env (tile_path self output_folder win) data = true) →
  ∃ w' new,
    generate_tiles env self output_folder tile_size tiled_arg compress
      photometric w = (inl tt, w') ∧
    trace w' = trace w ++ new ∧
    saved_files new =
      (λ win, (tile_path self output_folder win,
               tile_profile self src tiled_arg win,
               option_list (rio_read env src win))) <$> ws.
Proof.
  intros Hready Hopen Hws Hall.
  pose proof (generate_tiles_run env self output_folder tile_size tiled_arg
                compress photometric w) as Hrun.
  cbv zeta in Hrun. rewrite Hready, Hopen, Hws in Hrun.
  destruct (tiles_run_all_saved env self src output_folder tiled_arg ws
              (S (next_handle w)) Hall) as (Hr & Hsv).
  destruct (tiles_run env self src output_folder tiled_arg (S (next_handle w)) ws)
    as [r evs]. cbn [fst snd] in *. subst r.
  eexists _, _. split_and!; [exact Hrun | reflexivity |].
  rewrite <- Hsv.
  assert (saved_files (evs ++ [EvClose (next_handle w)]) = saved_files evs)
    as Htail by (apply saved_files_app_other; by repeat constructor).
  by destruct (bool_decide _); cbn [app saved_files].
Qed.

(** X2. Whatever fails, the files [generate_tiles] has created are those
    of the first [k] windows of the enumeration, for some [k]; on a normal
    return they are those of all the windows.  The loop stops at the first
    window that fails and leaves the tiles before it in place. *)
Theorem generate_tiles_creates_a_prefix env self output_folder tile_size
    tiled_arg compress photometric w ws :
  tile_windows (r_width self) (r_height self) tile_size = inl ws →
  ∃ r w' new k,
    generate_tiles env self output_folder tile_size tiled_arg compress
      photometric w = (r, w') ∧
    trace w' = trace w ++ new ∧
    (k ≤ length ws)%nat ∧
    created new =
      take k ((λ win, tile_path self output_folder win) <$> ws) ∧
    (r = inl tt → k = length ws).
Proof.
  intros Hws.
  pose proof (generate_tiles_run env self output_folder tile_size tiled_arg
                compress photometric w) as Hrun.
  cbv zeta in Hrun. rewrite Hws in Hrun.
  destruct (folder_ready env w output_folder); cycle 1.
  { eexists _, w, [], 0%nat.
    split_and!; [exact Hrun | by rewrite app_nil_r | lia | done | done]. }
  destruct (rio_open env (filepath self)) as [src |].
  - destruct (tiles_run_created env self src output_folder tiled_arg ws
                (S (next_handle w))) as (k & Hk & Hc & Hall).
    destruct (tiles_run env self src output_folder tiled_arg (S (next_handle w)) ws)
      as [r evs]. cbn [fst snd] in *.
    eexists r, _, _, k. split_and!; [exact Hrun | reflexivity | done | | done].
    rewrite created_app.
    destruct (bool_decide _); simpl; rewrite created_app, Hc; simpl;
      by rewrite app_nil_r.
  - eexists _, _, _, 0%nat. split_and!; [exact Hrun | reflexivity | lia | | done].
    by destruct (bool_decide _).
Qed.

(** X3. [generate_tiles] leaves no handle open: on every run, for every
    tile size and whatever fails, each handle opened during the call (the
    source and every tile) has been closed when the call ends. *)
Theorem generate_tiles_leaves_nothing_open env self output_folder tile_size
    tiled_arg compress photometric w :
  ∃ new,
    trace (generate_tiles env self output_folder tile_size tiled_arg compress
             photometric w).2 = trace w ++ new ∧
    unclosed new = [].
Proof.
  rewrite generate_tiles_run. cbv zeta.
  destruct (folder_ready env w output_folder); cycle 1.
  { exists []. by rewrite app_nil_r. }
  destruct (rio_open env (filepath self)) as [src |].
  - destruct (tile_windows _ _ _) as [ws | e].
    + eexists. split; [reflexivity |].
      unfold unclosed. rewrite foldl_app.
      assert (∀ acc, foldl track acc
                (if bool_decide (output_folder ≠ "" ∧ output_folder ∈ paths w)
                 then [] else [EvMakedirs output_folder]) = acc) as ->
        by (intros acc; by destruct (bool_decide _)).
      cbn [foldl track app]. rewrite foldl_app.
      rewrite tiles_run_closed by (repeat constructor; lia).
      simpl. rewrite filter_cons_False by (intros Hne; by apply Hne). done.
    + eexists. split; [reflexivity |].
      unfold unclosed. destruct (bool_decide _); simpl;
        by rewrite filter_cons_False by (intros Hne; by apply Hne).
  - eexists. split; [reflexivity |]. by destruct (bool_decide _).
Qed.


(** Without a folder: the empty path does not exist and cannot be made,
    so the call raises before the source is opened. *)
Example generate_tiles_empty_folder :
  generate_tiles (demo_env []) demo_raster "" 3 false "JPEG" "RGB"
    demo_world = (inr (OSError ""), demo_world).
Proof. reflexivity. Qed.

(** ** More on the grid *)

Lemma grid_length W H tile_size cols rows :
  length (grid W H tile_size cols rows) = (length cols * length rows)%nat.
Proof.
  unfold grid. induction cols as [| i cols IH]; [done |].
  rewrite bind_cons, length_app, IH. simpl. f_equal.
  clear IH. induction rows as [| j rows IH]; [done |].
  rewrite bind_cons. simpl. by rewrite IH.
Qed.

Lemma range_length_ceil stop step l :
  0 ≤ stop → 0 < step →
  PyRange.range 0 stop step = inl l →
  Z.of_nat (length l) = (stop + step - 1) / step.
Proof.
  intros Hstop Hstep. rewrite range_pos_eq by done. intros [= <-].
  rewrite length_fmap, length_seqZ. unfold PyRange.range_len.
  destruct (decide (0 < step)); [| lia].
  destruct (decide (0 < stop)).
  - replace (stop + step - 1) with (stop - 0 - 1 + 1 * step) by lia.
    rewrite Z.div_add by lia.
    assert (0 ≤ (stop - 0 - 1) / step) by (apply Z.div_pos; lia). lia.
  - replace stop with 0 by lia. rewrite Z.div_small by lia. done.
Qed.

(** X5. A raster of [W] x [H] pixels (possibly empty) is cut into
    [ceil(W / tile_size) * ceil(H / tile_size)] windows. *)
Theorem tile_count W H tile_size :
  0 ≤ W → 0 ≤ H → 0 < tile_size →
  ∃ ws, tile_windows W H tile_size = inl ws ∧
    Z.of_nat (length ws) =
      ((W + tile_size - 1) / tile_size) * ((H + tile_size - 1) / tile_size).
Proof.
  intros HW HH Hts.
  destruct (tile_windows_grid W H tile_size Hts) as (cols & rows & Hc & Hr & Hws).
  eexists. split; [exact Hws |].
  rewrite grid_length, Nat2Z.inj_mul.
  by rewrite (range_length_ceil W tile_size cols),
             (range_length_ceil H tile_size rows).
Qed.

Lemma tile_count_witness :
  ∃ ws, tile_windows 2500 2500 1024 = inl ws ∧
    Z.of_nat (length ws) =
      ((2500 + 1024 - 1) / 1024) * ((2500 + 1024 - 1) / 1024).
Proof. apply (tile_count 2500 2500 1024); lia. Defined.

(** X6. A tile size at least as large as both dimensions gives a single
    window, the whole raster. *)
Theorem tile_size_covering_raster W H tile_size :
  0 < W ≤ tile_size → 0 < H ≤ tile_size →
  tile_windows W H tile_size = inl [mkWindow 0 0 W H].
Proof.
  intros HW HH. unfold tile_windows, PyRange.range, PyRange.range_len.
  destruct (decide (tile_size = 0)); [lia |].
  destruct (decide (0 < tile_size)); [| lia].
  destruct (decide (0 < W)); [| lia]. destruct (decide (0 < H)); [| lia].
  rewrite !Z.div_small by lia. simpl.
  unfold tile_window. do 2 f_equal; f_equal; lia.
Qed.

Lemma tile_size_covering_raster_witness :
  tile_windows 5 3 1024 = inl [mkWindow 0 0 5 3].
Proof. apply (tile_size_covering_raster 5 3 1024); lia. Defined.

(** An empty raster has no window. *)
Lemma tile_windows_empty W H tile_size :
  0 < tile_size → W ≤ 0 ∨ H ≤ 0 → tile_windows W H tile_size = inl [].
Proof.
  intros Hts Hempty.
  destruct (tile_windows_grid W H tile_size Hts) as (cols & rows & Hc & Hr & ->).
  f_equal. apply length_zero_iff_nil. rewrite grid_length.
  destruct Hempty as [HW | HH].
  - assert (cols = []) as ->; [| done].
    rewrite range_pos_eq in Hc by done. injection Hc as <-.
    unfold PyRange.range_len. destruct (decide (0 < tile_size)); [| lia].
    by destruct (decide (0 < W)); [lia |].
  - assert (rows = []) as ->; [| simpl; lia].
    rewrite range_pos_eq in Hr by done. injection Hr as <-.
    unfold PyRange.range_len. destruct (decide (0 < tile_size)); [| lia].
    by destruct (decide (0 < H)); [lia |].
Qed.

(** The extents of the windows along one axis add up to its length. *)
Lemma axis_extents_sum dim tile_size (c : nat) :
  0 < tile_size → (Z.of_nat c - 1) * tile_size < dim → 0 ≤ dim →
  foldr Z.add 0 ((λ k, Z.min tile_size (dim - (0 + k * tile_size)))
                   <$> seqZ 0 (Z.of_nat c)) =
  Z.min (Z.of_nat c * tile_size) dim.
Proof.
  intros Hts. induction c as [| c IH]; intros Hc Hdim.
  - simpl. lia.
  - rewrite seqZ_S, fmap_app, foldr_app. simpl.
    assert (∀ l a, foldr Z.add a l = foldr Z.add 0 l + a) as Hacc.
    { clear. induction l as [| x l IHl]; intros a; simpl; [lia |].
      rewrite IHl. lia. }
    rewrite Hacc, IH by lia. nia.
Qed.

Lemma range_extents_sum dim tile_size offs :
  0 ≤ dim → 0 < tile_size →
  PyRange.range 0 dim tile_size = inl offs →
  foldr Z.add 0 ((λ i, Z.min tile_size (dim - i)) <$> offs) = dim.
Proof.
  intros Hdim Hts. rewrite range_pos_eq by done. intros [= <-].
  rewrite <- list_fmap_compose. unfold compose.
  unfold PyRange.range_len. destruct (decide (0 < tile_size)); [| lia].
  destruct (decide (0 < dim)); [| simpl; lia].
  replace (dim - 0 - 1) with (dim - 1) by lia.
  pose proof (Z.div_mod (dim - 1) tile_size ltac:(lia)) as Hdm.
  pose proof (Z.mod_pos_bound (dim - 1) tile_size Hts) as Hmb.
  assert (0 ≤ (dim - 1) / tile_size) as Hq by (apply Z.div_pos; lia).
  set (q := (dim - 1) / tile_size) in *.
  replace (q + 1) with (Z.of_nat (Z.to_nat (q + 1))) by lia.
  rewrite axis_extents_sum by lia. nia.
Qed.

(** X7. The areas of the windows add up to the area of the raster: no
    pixel is lost and none is counted twice. *)
Theorem tile_areas_sum W H tile_size :
  0 ≤ W → 0 ≤ H → 0 < tile_size →
  ∃ ws, tile_windows W H tile_size = inl ws ∧
    foldr Z.add 0 ((λ w, width w * height w) <$> ws) = W * H.
Proof.
  intros HW HH Hts.
  destruct (tile_windows_grid W H tile_size Hts) as (cols & rows & Hc & Hr & Hws).
  eexists. split; [exact Hws |].
  pose proof (range_extents_sum W tile_size cols HW Hts Hc) as Hsc.
  pose proof (range_extents_sum H tile_size rows HH Hts Hr) as Hsr.
  rewrite <- Hsc at 2. rewrite <- Hsr at 2. clear Hsc Hsr Hc Hr Hws.
  assert (∀ l a, foldr Z.add a l = foldr Z.add 0 l + a) as Hacc.
  { clear. induction l as [| x l IHl]; intros a; simpl; [lia |].
    rewrite IHl. lia. }
  unfold grid. induction cols as [| i cols IH]; [done |].
  rewrite bind_cons, fmap_app, foldr_app, Hacc, IH.
  etrans; [apply (f_equal (λ z, z + _)) |].
  { instantiate (1 := Z.min tile_size (W - i) *
      foldr Z.add 0 ((λ j, Z.min tile_size (H - j)) <$> rows)).
    clear -Hacc. induction rows as [| j rows IHr]; [simpl; lia |].
    rewrite bind_cons, fmap_app, foldr_app, Hacc, IHr, !fmap_cons.
    cbn [foldr fmap list_fmap]. unfold tile_window. cbn [width height].
    generalize (foldr Z.add 0 ((λ j, Z.min tile_size (H - j)) <$> rows)).
    intros S. lia. }
  rewrite !fmap_cons. cbn [foldr].
  generalize (foldr Z.add 0 ((λ j, Z.min tile_size (H - j)) <$> rows)).
  generalize (foldr Z.add 0 ((λ i, Z.min tile_size (W - i)) <$> cols)).
  intros Sc Sr. lia.
Qed.

Lemma tile_areas_sum_witness :
  ∃ ws, tile_windows 2500 2500 1024 = inl ws ∧
    foldr Z.add 0 ((λ w, width w * height w) <$> ws) = 2500 * 2500.
Proof. apply (tile_areas_sum 2500 2500 1024); lia. Defined.

(** ** Formatting offsets and naming tiles *)

Lemma string_length_app s1 s2 :
  String.length (s1 +:+ s2) = (String.length s1 + String.length s2)%nat.
Proof. induction s1 as [| a s1 IH]; simpl; [done | by rewrite IH]. Qed.

Lemma decimal_cons a s :
  decimal (String a s) → decimal (String a "") ∧ decimal s.
Proof.
  unfold decimal. simpl. intros [d Hd].
  destruct (NilEmpty.uint_of_string s) as [ds |]; [| done].
  split; [| by eexists].
  apply uint_of_char_spec in Hd.
  destruct Hd as [[-> _] | [[-> _] | [[-> _] | [[-> _] | [[-> _] |
    [[-> _] | [[-> _] | [[-> _] | [[-> _] | [-> _]]]]]]]]]]; by eexists.
Qed.

(** Two texts made of a decimal part, a non-digit and a rest are equal
    only if their parts are. *)
Lemma split_at_separator c A : ∀ A' X X',
  ¬ decimal (String c "") → decimal A → decimal A' →
  A +:+ String c X = A' +:+ String c X' → A = A' ∧ X = X'.
Proof.
  induction A as [| a A IH]; intros [| a' A'] X X' Hc HA HA' Heq; simpl in Heq.
  - by injection Heq as ->.
  - injection Heq as -> _. by apply decimal_cons in HA' as [? _].
  - injection Heq as <- _. by apply decimal_cons in HA as [? _].
  - injection Heq as -> Heq.
    apply decimal_cons in HA as [_ HA]. apply decimal_cons in HA' as [_ HA'].
    destruct (IH A' X X' Hc HA HA' Heq) as [-> ->]. done.
Qed.

Lemma zeros_decimal k s d :
  NilEmpty.uint_of_string s = Some d →
  ∃ d', NilEmpty.uint_of_string
          (string_of_list_ascii (replicate k "0"%char) +:+ s) = Some d' ∧
        N.of_uint d' = N.of_uint d.
Proof.
  intros Hs. induction k as [| k (d' & Hd' & Hn)]; [by exists d |].
  exists (Decimal.D0 d'). simpl. by rewrite Hd'.
Qed.

Lemma digits_decimal (m : N) :
  ∃ d, NilEmpty.uint_of_string (NilZero.string_of_uint (N.to_uint m)) = Some d ∧
       N.of_uint d = m.
Proof.
  pose proof (DecimalN.Unsigned.of_to m) as Hm.
  destruct (N.to_uint m) as [| u | u | u | u | u | u | u | u | u | u] eqn:Hu.
  1: { exists (Decimal.D0 Decimal.Nil). split; [done |]. by rewrite <- Hm. }
  all: eexists; split; [apply (NilEmpty.usu (_ u)) | exact Hm].
Qed.

(** Checking a property of [0 .. k-1] by counting up. *)
Lemma count_up_check (test : Z → bool) (k : N) :
  N.iter k (λ '(n, ok), (n + 1, ok && test n)) (0, true) = (Z.of_N k, true) →
  ∀ n, 0 ≤ n < Z.of_N k → test n = true.
Proof.
  set (step := λ '(n, ok), (n + 1, ok && test n)).
  assert (∀ k, (N.iter k step (0, true)).1 = Z.of_N k ∧
               ((N.iter k step (0, true)).2 = true →
                ∀ n, 0 ≤ n < Z.of_N k → test n = true)) as Hinv.
  { clear k. induction k as [| k [IHn IHok]] using N.peano_ind.
    - split; [done |]. intros _ n Hn. lia.
    - rewrite N.iter_succ.
      destruct (N.iter k step (0, true)) as [m ok]. simpl in *. subst m.
      split; [lia |]. intros [Hok Ht]%andb_prop n Hn.
      destruct (decide (n = Z.of_N k)) as [-> | Hne]; [done |].
      apply IHok; [done | lia]. }
  intros Hrun. destruct (Hinv k) as [_ Hok]. apply Hok. by rewrite Hrun.
Qed.

Lemma fmt_05d_parse n :
  0 ≤ n →
  ∃ d, NilEmpty.uint_of_string (fmt_05d n) = Some d ∧
       Z.of_N (N.of_uint d) = n.
Proof.
  intros Hn. unfold fmt_05d. cbv zeta. destruct (decide (n < 0)); [lia |].
  destruct (digits_decimal (Z.abs_N n)) as (d & Hd & Hv).
  destruct (zeros_decimal
              (5 - String.length "" -
               String.length (NilZero.string_of_uint (N.to_uint (Z.abs_N n))))
              _ d Hd) as (d' & Hd' & Hv').
  exists d'. split; [exact Hd' |]. rewrite Hv', Hv. lia.
Qed.

(** X8. A non-negative offset can be read back from its formatted text:
    the text is a decimal numeral whose value is the offset.  The text is
    never shorter than 5 characters, and exactly 5 characters long for
    offsets up to 99999. *)
Theorem fmt_05d_reads_back n :
  0 ≤ n →
  (∃ d, NilEmpty.uint_of_string (fmt_05d n) = Some d ∧
        Z.of_N (N.of_uint d) = n) ∧
  (5 ≤ String.length (fmt_05d n))%nat ∧
  (n ≤ 99999 → String.length (fmt_05d n) = 5%nat).
Proof.
  intros Hn. split_and!.
  - by apply fmt_05d_parse.
  - unfold fmt_05d. cbv zeta. destruct (decide (n < 0)); [lia |].
    rewrite !string_length_app.
    assert (∀ k, String.length (string_of_list_ascii (replicate k "0"%char)) = k)
      as -> by (induction k; simpl; congruence).
    simpl. lia.
  - intros Hle.
    apply Nat.eqb_eq.
    apply (count_up_check (λ n, Nat.eqb (String.length (fmt_05d n)) 5) 100000);
      [by vm_compute | lia].
Qed.

Lemma fmt_05d_reads_back_witness :
  (∃ d, NilEmpty.uint_of_string (fmt_05d 2048) = Some d ∧
        Z.of_N (N.of_uint d) = 2048) ∧
  (5 ≤ String.length (fmt_05d 2048))%nat ∧
  (2048 ≤ 99999 → String.length (fmt_05d 2048) = 5%nat).
Proof. apply (fmt_05d_reads_back 2048). lia. Defined.

Lemma fmt_05d_inj n m : 0 ≤ n → 0 ≤ m → fmt_05d n = fmt_05d m → n = m.
Proof.
  intros Hn Hm Heq.
  destruct (fmt_05d_parse n Hn) as (d & Hd & <-).
  destruct (fmt_05d_parse m Hm) as (d' & Hd' & <-).
  rewrite Heq in Hd. congruence.
Qed.

Lemma fmt_05d_decimal n : 0 ≤ n → decimal (fmt_05d n).
Proof.
  intros Hn. destruct (fmt_05d_parse n Hn) as (d & Hd & _).
  by exists d.
Qed.

(** Equal tile names have equal formatted offsets. *)
Lemma tile_name_split self i j i' j' :
  0 ≤ i → 0 ≤ j → 0 ≤ i' → 0 ≤ j' →
  tile_name self i j = tile_name self i' j' →
  fmt_05d i = fmt_05d i' ∧ fmt_05d j = fmt_05d j'.
Proof.
  intros Hi Hj Hi' Hj'. unfold tile_name. simpl. intros [= Heq].
  apply split_at_separator in Heq as [Hx Heq];
    [| by intros [? ?] | by apply fmt_05d_decimal..].
  injection Heq as Heq.
  apply split_at_separator in Heq as [Hy _];
    [| by intros [? ?] | by apply fmt_05d_decimal..].
  done.
Qed.

(** X9. Tile names do not collide: two pairs of non-negative offsets
    that get the same name are the same pair, whatever the extension and
    however large the offsets. *)
Theorem tile_name_injective self i j i' j' :
  0 ≤ i → 0 ≤ j → 0 ≤ i' → 0 ≤ j' →
  tile_name self i j = tile_name self i' j' → i = i' ∧ j = j'.
Proof.
  intros Hi Hj Hi' Hj' Heq.
  destruct (tile_name_split self i j i' j' Hi Hj Hi' Hj' Heq) as [Hx Hy].
  split.
  - by apply fmt_05d_inj.
  - by apply fmt_05d_inj.
Qed.

Lemma tile_name_injective_witness :
  tile_name demo_raster 0 1024 = tile_name demo_raster 0 1024 ∧
  (0 = 0 ∧ 1024 = 1024).
Proof.
  split; [reflexivity |].
  apply (tile_name_injective demo_raster 0 1024 0 1024); [lia.. | reflexivity].
Defined.

Lemma string_app_inv_head p s1 s2 : p +:+ s1 = p +:+ s2 → s1 = s2.
Proof. induction p as [| a p IH]; simpl; [done |]. intros [= Heq]. auto. Qed.

(** Joining a folder with two tile names gives the same path only for
    the same name. *)
Lemma tile_path_name_inj self output_folder win win' :
  tile_path self output_folder win = tile_path self output_folder win' →
  tile_name self (col_off win) (row_off win) =
  tile_name self (col_off win') (row_off win').
Proof.
  unfold tile_path, os_path_join.
  assert (∀ i j, String.prefix "/" (tile_name self i j) = false) as Hrel
    by done.
  rewrite !Hrel.
  destruct (bool_decide (output_folder = "") || ends_with_slash output_folder).
  - apply string_app_inv_head.
  - by intros Heq%string_app_inv_head%string_app_inv_head.
Qed.

Lemma grid_NoDup W H tile_size cols rows :
  StronglySorted Z.lt cols → StronglySorted Z.lt rows →
  NoDup (grid W H tile_size cols rows).
Proof.
  intros Hc Hr. apply NoDup_alt. intros p q win Hp Hq.
  pose proof (grid_sorted W H tile_size cols rows Hc Hr) as Hs.
  destruct (lt_eq_lt_dec p q) as [[Hlt | ->] | Hgt]; [| done |].
  - pose proof (StronglySorted_lookup_lt _ _ p q win win Hs Hp Hq Hlt) as Hb.
    unfold emitted_before in Hb. lia.
  - pose proof (StronglySorted_lookup_lt _ _ q p win win Hs Hq Hp Hgt) as Hb.
    unfold emitted_before in Hb. lia.
Qed.

(** X10. The tiles of one call never overwrite each other: the windows
    of a tiling are saved under pairwise distinct paths. *)
Theorem tile_paths_distinct self output_folder W H tile_size ws :
  0 < tile_size →
  tile_windows W H tile_size = inl ws →
  NoDup ((λ win, tile_path self output_folder win) <$> ws).
Proof.
  intros Hts Hws.
  destruct (tile_windows_grid W H tile_size Hts) as (cols & rows & Hc & Hr & Hg).
  rewrite Hg in Hws. injection Hws as <-.
  apply NoDup_fmap_2_strong.
  - intros win win' (i & j & Hi & Hj & ->)%elem_of_grid
      (i' & j' & Hi' & Hj' & ->)%elem_of_grid Heq.
    apply tile_path_name_inj in Heq. simpl in Heq.
    apply (elem_of_range W tile_size Hts cols i Hc) in Hi as [Hi _].
    apply (elem_of_range W tile_size Hts cols i' Hc) in Hi' as [Hi' _].
    apply (elem_of_range H tile_size Hts rows j Hr) in Hj as [Hj _].
    apply (elem_of_range H tile_size Hts rows j' Hr) in Hj' as [Hj' _].
    apply tile_name_split in Heq as [Hx Hy]; [| lia..].
    apply fmt_05d_inj in Hx; [| lia..]. apply fmt_05d_inj in Hy; [| lia..].
    by subst.
  - apply grid_NoDup; by eapply range_sorted.
Qed.

Lemma tile_paths_distinct_witness :
  ∃ ws, tile_windows 2500 2500 1024 = inl ws ∧
    NoDup ((λ win, tile_path demo_raster "out" win) <$> ws).
Proof.
  eexists. split; [reflexivity |].
  apply (tile_paths_distinct demo_raster "out" 2500 2500 1024); [lia | reflexivity].
Defined.

(** ** Failing merges *)

Section MergeFailures.
Variables (env : Env) (self : Raster).
Variables (input_folder output_path : string).

Lemma inputs_at_datasets h fps dss :
  length dss = length fps →
  snd <$> (opened_src <$> inputs_at h fps dss) = dss.
Proof.
  intros Hlen. rewrite <- list_fmap_compose. unfold inputs_at.
  apply snd_zip. rewrite length_zip, length_seq. lia.
Qed.

Lemma inputs_at_length h fps dss :
  length dss = length fps → length (inputs_at h fps dss) = length fps.
Proof. intros Hlen. unfold inputs_at. rewrite !length_zip, length_seq. lia. Qed.

(** The opening loop stops at the first input that does not open. *)
Lemma open_inputs_stops good bad rest dss : ∀ (l : merge_locals) w,
  mapM (rio_open env) good = Some dss →
  rio_open env bad = None →
  open_inputs env (good ++ bad :: rest) l w =
  (inr (RasterioIOError bad),
   l ++ (opened_src <$> inputs_at (next_handle w) good dss),
   mkWorld (next_handle w + length good) (paths w)
     (trace w ++ (open_event <$> inputs_at (next_handle w) good dss))).
Proof.
  unfold open_inputs. revert dss.
  induction good as [| fp good IH]; intros dss l w Hm Hbad.
  - injection Hm as <-. simpl. rewrite bind_run. unfold rio_open_r.
    rewrite Hbad, !app_nil_r, Nat.add_0_r. by destruct w.
  - simpl in Hm. destruct (rio_open env fp) as [ds |] eqn:Hfp; [| done].
    simpl in Hm. destruct (mapM (rio_open env) good) as [dss' |]; [| done].
    injection Hm as <-.
    simpl. rewrite bind_run. unfold rio_open_r at 1. rewrite Hfp.
    cbv zeta. rewrite bind_run. unfold get_local at 1. cbv beta iota.
    rewrite bind_run. unfold set_local at 1. cbv beta iota.
    rewrite (IH dss') by done. cbn [next_handle paths trace].
    rewrite <- !app_assoc. simpl. do 2 f_equal. lia.
Qed.

(** Every run of [merge_tiles] on a non-empty listing, step by step. *)
Lemma merge_tiles_steps w :
  glob env (os_path_join input_folder "*.tif") ≠ [] →
  merge_tiles env self input_folder output_path w =
  match open_inputs env (glob env (os_path_join input_folder "*.tif")) [] w with
  | (r1, l1, w1) =>
    match (match r1 with
           | inl _ => write_mosaic env self output_path l1 w1
           | inr e => (inr e, l1, w1)
           end) with
    | (r2, l2, w2) =>
      match (match r2 with
             | inl _ => (inl tt, l2, w2)
             | inr e => emit (EvPrint "Error in merging tiles: " e) l2 w2
             end) with
      | (r3, l3, w3) =>
        match close_inputs l3 w3 with
        | (inl _, _, w4) => (r3, w4)
        | (inr e, _, w4) => (inr e, w4)
        end
      end
    end
  end.
Proof.
  intros Hne. unfold merge_tiles. cbv zeta.
  rewrite bool_decide_eq_false_2 by done.
  unfold run, try_finally, try_except. rewrite bind_run.
  destruct (open_inputs env _ [] w) as [[[[] | e1] l1] w1].
  - destruct (write_mosaic env self output_path l1 w1) as [[[[] | e2] l2] w2].
    + by destruct (close_inputs l2 w2) as [[[[] | e4] l4] w4].
    + unfold emit.
      by destruct (close_inputs l2 _) as [[[[] | e4] l4] w4].
  - unfold emit. by destruct (close_inputs l1 _) as [[[[] | e4] l4] w4].
Qed.

(** What the second part of the [try] block does, case by case. *)
Lemma write_mosaic_cases (l : merge_locals) w :
  write_mosaic env self output_path l w =
  match rio_merge env (snd <$> l) with
  | None => (inr MergeError, l, w)
  | Some (mosaic, out_trans) =>
    match l !! 0%nat with
    | None => (inr IndexError, l, w)
    | Some first =>
      let h := next_handle w in
      let out_meta := merge_out_meta self first.2 mosaic out_trans in
      if rio_create env output_path then
        if rio_write env output_path mosaic then
          (inl tt, l,
           mkWorld (S h) ({[output_path]} ∪ paths w)
             (trace w ++ [EvOpenW h output_path out_meta;
                          EvWrite h mosaic; EvClose h]))
        else
          (inr (RasterioIOError output_path), l,
           mkWorld (S h) ({[output_path]} ∪ paths w)
             (trace w ++ [EvOpenW h output_path out_meta; EvClose h]))
      else (inr (RasterioIOError output_path), l, w)
    end
  end.
Proof.
  unfold write_mosaic. run_prims.
  destruct (rio_merge env (snd <$> l)) as [[mosaic out_trans] |]; run_prims;
    [| done].
  destruct (l !! 0%nat) as [first |]; run_prims; [| done].
  destruct (rio_create env output_path); run_prims; [| done].
  destruct (rio_write env output_path mosaic); run_prims;
    by rewrite <- !app_assoc.
Qed.

(** The opening loop when every input opens. *)
Lemma open_inputs_all fps dss (l : merge_locals) w :
  mapM (rio_open env) fps = Some dss →
  open_inputs env fps l w =
  (inl tt, l ++ (opened_src <$> inputs_at (next_handle w) fps dss),
   mkWorld (next_handle w + length fps) (paths w)
     (trace w ++ (open_event <$> inputs_at (next_handle w) fps dss))).
Proof.
  intros Hm.
  destruct (open_loop_run env fps l w) as (ops & r & Hrun & _ & Hall).
  destruct (Hall dss Hm) as [-> ->]. rewrite Hrun.
  fold (inputs_at (next_handle w) fps dss).
  by rewrite inputs_at_length by (by apply length_mapM in Hm).
Qed.

(** X11. When an input cannot be opened, [merge_tiles] opens the inputs
    listed before it and none after it, creates no output, prints the
    error, closes what it opened and returns normally. *)
Theorem merge_unopenable_input w good bad rest dss :
  glob env (os_path_join input_folder "*.tif") = good ++ bad :: rest →
  mapM (rio_open env) good = Some dss →
  rio_open env bad = None →
  let ops := inputs_at (next_handle w) good dss in
  merge_tiles env self input_folder output_path w =
  (inl tt,
   mkWorld (next_handle w + length good) (paths w)
     (trace w ++ (open_event <$> ops) ++
      [EvPrint "Error in merging tiles: " (RasterioIOError bad)] ++
      (close_event <$> ops))).
Proof.
  intros Hfps Hm Hbad. cbv zeta.
  rewrite merge_tiles_steps by (rewrite Hfps; by destruct good).
  rewrite Hfps, (open_inputs_stops good bad rest dss) by done.
  rewrite app_nil_l. unfold emit. rewrite close_inputs_run.
  cbn [next_handle paths trace]. by rewrite <- !app_assoc.
Qed.

(** X12. When every input opens but the merge raises, or the output
    cannot be created, [merge_tiles] creates nothing: it prints the error,
    closes all inputs and returns normally. *)
Theorem merge_fails_before_output w dss e :
  glob env (os_path_join input_folder "*.tif") ≠ [] →
  mapM (rio_open env) (glob env (os_path_join input_folder "*.tif"))
    = Some dss →
  (rio_merge env dss = None ∧ e = MergeError) ∨
  (∃ r, rio_merge env dss = Some r ∧ rio_create env output_path = false ∧
        e = RasterioIOError output_path) →
  let fps := glob env (os_path_join input_folder "*.tif") in
  let ops := inputs_at (next_handle w) fps dss in
  merge_tiles env self input_folder output_path w =
  (inl tt,
   mkWorld (next_handle w + length fps) (paths w)
     (trace w ++ (open_event <$> ops) ++
      [EvPrint "Error in merging tiles: " e] ++ (close_event <$> ops))).
Proof.
  intros Hne Hm Hfail. cbv zeta.
  rewrite merge_tiles_steps by done.
  rewrite (open_inputs_all _ dss) by done. rewrite app_nil_l.
  rewrite write_mosaic_cases.
  rewrite inputs_at_datasets by (by apply length_mapM in Hm).
  assert (∃ first, ((opened_src <$> inputs_at (next_handle w)
            (glob env (os_path_join input_folder "*.tif")) dss)
            : merge_locals) !! 0%nat = Some first) as [first Hfirst].
  { apply length_mapM in Hm.
    destruct (glob env (os_path_join input_folder "*.tif")); [done |].
    destruct dss; [done |]. by eexists. }
  destruct Hfail as [[Hmerge ->] | ([mosaic out_trans] & Hmerge & Hcreate & ->)];
    rewrite Hmerge; [| rewrite Hfirst; cbv zeta; rewrite Hcreate];
    unfold emit; rewrite close_inputs_run; cbn [next_handle paths trace];
    by rewrite <- !app_assoc.
Qed.

(** X13. When the output is created but writing the mosaic fails, the
    output file is left behind without data: it exists, nothing was
    written to it, its handle and all inputs are closed, the error is
    printed and [merge_tiles] returns normally. *)
Theorem merge_write_fails w dss mosaic out_trans :
  glob env (os_path_join input_folder "*.tif") ≠ [] →
  mapM (rio_open env) (glob env (os_path_join input_folder "*.tif"))
    = Some dss →
  rio_merge env dss = Some (mosaic, out_trans) →
  rio_create env output_path = true →
  rio_write env output_path mosaic = false →
  let fps := glob env (os_path_join input_folder "*.tif") in
  let ops := inputs_at (next_handle w) fps dss in
  let h := (next_handle w + length fps)%nat in
  ∃ first, dss !! 0%nat = Some first ∧
    merge_tiles env self input_folder output_path w =
    (inl tt,
     mkWorld (S h) ({[output_path]} ∪ paths w)
       (trace w ++ (open_event <$> ops) ++
        [EvOpenW h output_path (merge_out_meta self first mosaic out_trans);
         EvClose h;
         EvPrint "Error in merging tiles: " (RasterioIOError output_path)] ++
        (close_event <$> ops))).
Proof.
  intros Hne Hm Hmerge Hcreate Hwrite. cbv zeta.
  rewrite merge_tiles_steps by done.
  rewrite (open_inputs_all _ dss) by done. rewrite app_nil_l.
  rewrite write_mosaic_cases.
  rewrite inputs_at_datasets by (by apply length_mapM in Hm).
  rewrite Hmerge.
  assert (∃ first, dss !! 0%nat = Some first ∧
            ((opened_src <$> inputs_at (next_handle w)
              (glob env (os_path_join input_folder "*.tif")) dss)
             : merge_locals) !! 0%nat
            = Some (next_handle w, first)) as (first & Hd & Hfirst).
  { apply length_mapM in Hm.
    destruct (glob env (os_path_join input_folder "*.tif")); [done |].
    destruct dss as [| first dss]; [done |]. by exists first. }
  exists first. split; [done |].
  rewrite Hfirst. cbv zeta. rewrite Hcreate, Hwrite.
  unfold emit. rewrite close_inputs_run. cbn [next_handle paths trace fst snd].
  by rewrite <- !app_assoc.
Qed.

End MergeFailures.

(** ** Arrays *)

Section BindSeqZ.
Context {A : Type}.
Variables (m : Z) (f : Z → list A).
Hypothesis m_nonneg : 0 ≤ m.

Lemma bind_seqZ_length (c : nat) :
  (∀ x, 0 ≤ x < Z.of_nat c → length (f x) = Z.to_nat m) →
  length (seqZ 0 (Z.of_nat c) ≫= f) = Z.to_nat (Z.of_nat c * m).
Proof.
  induction c as [| c IH]; intros Hlen; [done |].
  rewrite seqZ_S, bind_app, length_app, IH by (intros x Hx; apply Hlen; lia).
  rewrite bind_singleton, Hlen by lia. lia.
Qed.

(** Element [i * m + j] of the concatenation of blocks of length [m] is
    element [j] of block [i]. *)
Lemma bind_seqZ_lookup (c : nat) i j :
  (∀ x, 0 ≤ x < Z.of_nat c → length (f x) = Z.to_nat m) →
  0 ≤ i < Z.of_nat c → 0 ≤ j < m →
  (seqZ 0 (Z.of_nat c) ≫= f) !! Z.to_nat (i * m + j) = f i !! Z.to_nat j.
Proof.
  induction c as [| c IH]; intros Hlen Hi Hj; [lia |].
  rewrite seqZ_S, bind_app, bind_singleton.
  assert (length (seqZ 0 (Z.of_nat c) ≫= f) = Z.to_nat (Z.of_nat c * m)) as Hl
    by (apply bind_seqZ_length; intros x Hx; apply Hlen; lia).
  destruct (decide (i < Z.of_nat c)) as [Hlt | Hge].
  - rewrite lookup_app_l by (rewrite Hl; nia).
    apply IH; [intros x Hx; apply Hlen; lia | lia | done].
  - assert (i = Z.of_nat c) as -> by lia.
    rewrite lookup_app_r by (rewrite Hl; nia). rewrite Hl. simpl.
    f_equal. nia.
Qed.

End BindSeqZ.

Lemma block_index_bound a b n m :
  0 ≤ a < n → 0 ≤ b < m → 0 ≤ a * m + b < n * m.
Proof.
  intros Ha Hb.
  assert (a * m ≤ (n - 1) * m) by (apply Z.mul_le_mono_nonneg_r; lia).
  assert (0 ≤ a * m) by (apply Z.mul_nonneg_nonneg; lia). lia.
Qed.

Lemma flat_index_bound d0 d1 d2 i j k :
  0 ≤ i < d0 → 0 ≤ j < d1 → 0 ≤ k < d2 →
  0 ≤ Numpy.flat_index (d0, d1, d2) i j k < d0 * d1 * d2.
Proof.
  intros Hi Hj Hk. unfold Numpy.flat_index. cbn [fst snd].
  pose proof (block_index_bound i j d0 d1 Hi Hj) as Hij.
  apply (block_index_bound (i * d1 + j) k (d0 * d1) d2); lia.
Qed.

Lemma transpose_get (a : NDArray) i j k :
  Numpy.well_formed a →
  Numpy.get (Numpy.transpose_120 a) j k i = Numpy.get a i j k.
Proof.
  unfold Numpy.well_formed, Numpy.get, Numpy.transpose_120.
  destruct a as [[[d0 d1] d2] data]. cbn [nd_shape nd_data].
  intros (H0 & H1 & H2 & Hlen).
  destruct (decide (0 ≤ j < d1 ∧ 0 ≤ k < d2 ∧ 0 ≤ i < d0)) as [Hin | Hout];
    destruct (decide (0 ≤ i < d0 ∧ 0 ≤ j < d1 ∧ 0 ≤ k < d2)) as [Hin' | Hout'];
    try done; try (exfalso; lia).
  destruct Hin as (Hj & Hk & Hi).
  destruct (Z_of_nat_complete d0 H0) as [n0 ->].
  destruct (Z_of_nat_complete d1 H1) as [n1 ->].
  destruct (Z_of_nat_complete d2 H2) as [n2 ->].
  set (cell := λ j k i, [default 0 (data !! Z.to_nat
         (Numpy.flat_index (Z.of_nat n0, Z.of_nat n1, Z.of_nat n2) i j k))]).
  assert (∀ j k, length (seqZ 0 (Z.of_nat n0) ≫= cell j k)
                 = Z.to_nat (Z.of_nat n0)) as Hrow.
  { intros j' k'. rewrite <- (Z.mul_1_r (Z.of_nat n0)) at 2.
    by apply bind_seqZ_length. }
  assert (∀ j, length (seqZ 0 (Z.of_nat n2) ≫=
                 (λ k, seqZ 0 (Z.of_nat n0) ≫= cell j k))
               = Z.to_nat (Z.of_nat n2 * Z.of_nat n0)) as Hplane.
  { intros j'. apply bind_seqZ_length; (lia || by intros). }
  unfold Numpy.flat_index at 1. cbn [fst snd].
  replace ((j * Z.of_nat n2 + k) * Z.of_nat n0 + i)
    with (j * (Z.of_nat n2 * Z.of_nat n0) + (k * Z.of_nat n0 + i)) by lia.
  change (seqZ 0 (Z.of_nat n1) ≫=
            (λ j, seqZ 0 (Z.of_nat n2) ≫=
               (λ k, seqZ 0 (Z.of_nat n0) ≫= cell j k))) with
         (seqZ 0 (Z.of_nat n1) ≫=
            (λ j, seqZ 0 (Z.of_nat n2) ≫=
               (λ k, seqZ 0 (Z.of_nat n0) ≫= cell j k))).
  rewrite (bind_seqZ_lookup (Z.of_nat n2 * Z.of_nat n0)
             (λ j, seqZ 0 (Z.of_nat n2) ≫=
                (λ k, seqZ 0 (Z.of_nat n0) ≫= cell j k)));
    [| lia | by intros | lia | by apply block_index_bound].
  rewrite (bind_seqZ_lookup (Z.of_nat n0)
             (λ k, seqZ 0 (Z.of_nat n0) ≫= cell j k));
    [| lia | by intros | lia | lia].
  replace i with (i * 1 + 0) at 1 by lia.
  rewrite (bind_seqZ_lookup 1 (cell j k)); [| lia | done | lia | lia].
  unfold cell. simpl.
  destruct (data !! Z.to_nat
    (Numpy.flat_index (Z.of_nat n0, Z.of_nat n1, Z.of_nat n2) i j k)) eqn:Hd;
    [done |].
  apply lookup_ge_None in Hd.
  pose proof (flat_index_bound _ _ _ i j k Hi Hj Hk). lia.
Qed.

Lemma take_bands_get (a : NDArray) stop i j k :
  Numpy.well_formed a → 0 ≤ stop → i < stop →
  Numpy.get (Numpy.take_bands stop a) i j k = Numpy.get a i j k.
Proof.
  unfold Numpy.well_formed, Numpy.get, Numpy.take_bands.
  destruct a as [[[d0 d1] d2] data]. cbn [nd_shape nd_data].
  intros (H0 & H1 & H2 & Hlen) Hstop Hi.
  destruct (decide (0 ≤ i < Z.min stop d0 ∧ 0 ≤ j < d1 ∧ 0 ≤ k < d2))
    as [Hin | Hout];
    destruct (decide (0 ≤ i < d0 ∧ 0 ≤ j < d1 ∧ 0 ≤ k < d2)) as [Hin' | Hout'];
    try done; try (exfalso; lia).
  apply lookup_take_lt.
  destruct Hin as (Hi' & Hj & Hk).
  pose proof (flat_index_bound (Z.min stop d0) d1 d2 i j k Hi' Hj Hk) as Hb.
  unfold Numpy.flat_index in *. cbn [fst snd] in *. lia.
Qed.

Lemma take_bands_well_formed (a : NDArray) stop :
  Numpy.well_formed a → 0 ≤ stop →
  Numpy.well_formed (Numpy.take_bands stop a).
Proof.
  unfold Numpy.well_formed, Numpy.take_bands.
  destruct a as [[[d0 d1] d2] data]. cbn [nd_shape nd_data].
  intros (H0 & H1 & H2 & Hlen) Hstop. split_and!; try lia.
  rewrite length_take, Hlen. nia.
Qed.

(** X14. [to_numpy_array] returns the raster as rows x columns x bands:
    pixel [(row, col)] of band [b] of the data read is element
    [(row, col, b)] of the result.  The bands are cut to the first three
    exactly when [self.channels] exceeds 3.  The source is opened and
    closed again and nothing else happens. *)
Theorem to_numpy_array_layout env self w src data bands rows cols :
  rio_open env (filepath self) = Some src →
  rio_read env src (full_window src) = Some data →
  Numpy.well_formed data →
  nd_shape data = (bands, rows, cols) →
  let kept := if decide (channels self > 3) then Z.min 3 bands else bands in
  ∃ image,
    to_numpy_array env self w =
      (inl image,
       mkWorld (S (next_handle w)) (paths w)
         (trace w ++ [EvOpenR (next_handle w) (filepath self);
                      EvClose (next_handle w)])) ∧
    nd_shape image = (rows, cols, kept) ∧
    (∀ row col b, b < kept →
       Numpy.get image row col b = Numpy.get data b row col) ∧
    (∀ row col b, kept ≤ b → Numpy.get image row col b = None).
Proof.
  intros Hopen Hread Hwf Hshape. cbv zeta.
  unfold to_numpy_array, run. run_prims. unfold rio_open_r. rewrite Hopen.
  run_prims. rewrite Hread. run_prims.
  eexists. split_and!.
  - rewrite <- app_assoc. reflexivity.
  - destruct (decide (channels self > 3));
      unfold Numpy.transpose_120, Numpy.take_bands; rewrite Hshape; done.
  - intros row col b Hb. destruct (decide (channels self > 3)).
    + rewrite transpose_get by (by apply take_bands_well_formed).
      apply take_bands_get; [done | lia | lia].
    + by apply transpose_get.
  - assert (∀ a row col b d0 d1 d2, nd_shape a = (d0, d1, d2) → d2 ≤ b →
              Numpy.get a row col b = None) as Hout.
    { clear. intros a row col b d0 d1 d2 Ha Hd. unfold Numpy.get. rewrite Ha.
      case_decide; [lia | done]. }
    intros row col b Hb.
    destruct (decide (channels self > 3)).
    + eapply Hout; [| exact Hb].
      unfold Numpy.transpose_120, Numpy.take_bands. by rewrite Hshape.
    + eapply Hout; [| exact Hb]. unfold Numpy.transpose_120. by rewrite Hshape.
Qed.

(** ** Witnesses on the concrete raster *)

Lemma generate_tiles_saves_every_window_witness :
  ∃ w' new,
    generate_tiles (demo_env []) demo_raster "out" 3 false "JPEG" "RGB"
      demo_world = (inl tt, w') ∧
    trace w' = trace demo_world ++ new ∧
    saved_files new =
      (λ win, (tile_path demo_raster "out" win,
               tile_profile demo_raster (demo_dataset "big.tif") false win,
               option_list
                 (rio_read (demo_env []) (demo_dataset "big.tif") win)))
        <$> [mkWindow 0 0 3 3; mkWindow 3 0 2 3].
Proof.
  apply (generate_tiles_saves_every_window (demo_env []) demo_raster "out" 3
           false "JPEG" "RGB" demo_world (demo_dataset "big.tif")
           [mkWindow 0 0 3 3; mkWindow 3 0 2 3]);
    [reflexivity | reflexivity | reflexivity |].
  intros win _. eexists. split_and!; reflexivity.
Defined.

Lemma generate_tiles_creates_a_prefix_witness :
  ∃ r w' new k,
    generate_tiles (switch_env [] true true false) demo_raster "out" 3 false
      "JPEG" "RGB" demo_world = (r, w') ∧
    trace w' = trace demo_world ++ new ∧
    (k ≤ length [mkWindow 0 0 3 3; mkWindow 3 0 2 3])%nat ∧
    created new =
      take k ((λ win, tile_path demo_raster "out" win)
                <$> [mkWindow 0 0 3 3; mkWindow 3 0 2 3]) ∧
    (r = inl tt → k = length [mkWindow 0 0 3 3; mkWindow 3 0 2 3]).
Proof.
  apply (generate_tiles_creates_a_prefix (switch_env [] true true false)
           demo_raster "out" 3 false "JPEG" "RGB" demo_world
           [mkWindow 0 0 3 3; mkWindow 3 0 2 3]).
  reflexivity.
Defined.

Lemma merge_unopenable_input_witness :
  ∃ w',
    merge_tiles (failing_env ["a.tif"; "b.tif"; "c.tif"] "b.tif") demo_raster
      "tiles" "mosaic.tif" demo_world = (inl tt, w') ∧
    trace w' =
      [EvOpenR 0 "a.tif";
       EvPrint "Error in merging tiles: " (RasterioIOError "b.tif");
       EvClose 0].
Proof.
  eexists. split.
  - apply (merge_unopenable_input
             (failing_env ["a.tif"; "b.tif"; "c.tif"] "b.tif") demo_raster
             "tiles" "mosaic.tif" demo_world ["a.tif"] "b.tif" ["c.tif"]
             [demo_dataset "a.tif"]); reflexivity.
  - reflexivity.
Defined.

Lemma merge_fails_before_output_witness :
  ∃ w',
    merge_tiles (switch_env ["a.tif"; "b.tif"] false true true) demo_raster
      "tiles" "mosaic.tif" demo_world = (inl tt, w') ∧
    created (trace w') = [].
Proof.
  eexists. split.
  - apply (merge_fails_before_output
             (switch_env ["a.tif"; "b.tif"] false true true) demo_raster
             "tiles" "mosaic.tif" demo_world
             [demo_dataset "a.tif"; demo_dataset "b.tif"] MergeError);
      [discriminate | reflexivity | by left].
  - reflexivity.
Defined.

Lemma merge_write_fails_witness :
  ∃ first w',
    [demo_dataset "a.tif"; demo_dataset "b.tif"] !! 0%nat = Some first ∧
    merge_tiles (switch_env ["a.tif"; "b.tif"] true true false) demo_raster
      "tiles" "mosaic.tif" demo_world = (inl tt, w') ∧
    created (trace w') = ["mosaic.tif"] ∧ written (trace w') = [].
Proof.
  destruct (merge_write_fails
              (switch_env ["a.tif"; "b.tif"] true true false) demo_raster
              "tiles" "mosaic.tif" demo_world
              [demo_dataset "a.tif"; demo_dataset "b.tif"]
              (mkNDArray (1, 3, 5) []) demo_transform)
    as (first & Hfirst & Hrun);
    [discriminate | reflexivity | reflexivity | reflexivity | reflexivity |].
  eexists first, _. split_and!; [exact Hfirst | exact Hrun | reflexivity..].
Defined.

Lemma to_numpy_array_layout_witness :
  ∃ image w',
    to_numpy_array pixel_env four_band_raster demo_world = (inl image, w') ∧
    nd_shape image = (2, 3, 3) ∧
    (∀ row col b, b < 3 →
       Numpy.get image row col b = Numpy.get demo_pixels b row col).
Proof.
  destruct (to_numpy_array_layout pixel_env four_band_raster demo_world
              (demo_dataset "rgba.tif") demo_pixels 4 2 3)
    as (image & Hrun & Hshape & Hget & _);
    [reflexivity | reflexivity | | reflexivity |].
  - unfold Numpy.well_formed. simpl. split_and!; (lia || reflexivity).
  - eexists image, _. split_and!; [exact Hrun | exact Hshape | exact Hget].
Defined.

Example to_numpy_array_pixel :
  ∃ image w',
    to_numpy_array pixel_env four_band_raster demo_world = (inl image, w') ∧
    Numpy.get demo_pixels 2 1 0 = Some 15 ∧
    Numpy.get image 1 0 2 = Some 15 ∧
    Numpy.get image 1 0 3 = None.
Proof. eexists _, _. split_and!; reflexivity. Qed.

(** ** The profile stored with a tile *)

(** X16. What [generate_tiles] stores with its tiles.  On every run, also
    one that raises, the [n]-th file the call creates is the tile of the
    [n]-th window of the enumeration, and the profile it is created with
    is the metadata of the source with five entries replaced: [driver] by
    that of the raster, [height] and [width] by the size of the window,
    [transform] by the window transform, [tiled] by the argument.  Every
    other entry (data type, band count, reference system, compression,
    ...) is the source's: the [compress] and [photometric] arguments are
    not stored. *)
Theorem stored_tile_profiles env self output_folder tile_size tiled_arg
    compress photometric w src ws :
  rio_open env (filepath self) = Some src →
  tile_windows (r_width self) (r_height self) tile_size = inl ws →
  ∃ new,
    trace (generate_tiles env self output_folder tile_size tiled_arg compress
             photometric w).2 = trace w ++ new ∧
    ∀ n path profile,
      created_with new !! n = Some (path, profile) →
      ∃ win,
        ws !! n = Some win ∧
        path = tile_path self output_folder win ∧
        profile !! "driver" = Some (VStr (driver self)) ∧
        profile !! "height" = Some (VInt (height win)) ∧
        profile !! "width" = Some (VInt (width win)) ∧
        profile !! "transform" =
          Some (VAffine (window_transform (ds_transform src) win)) ∧
        profile !! "tiled" = Some (VBool tiled_arg) ∧
        ∀ k, k ∉ ["driver"; "height"; "width"; "transform"; "tiled"] →
             profile !! k = ds_meta src !! k.
Proof.
  intros Hopen Hws. rewrite generate_tiles_run. cbv zeta.
  destruct (folder_ready env w output_folder); cycle 1.
  { exists []. split; [by rewrite app_nil_r | done]. }
  rewrite Hopen, Hws.
  destruct (tiles_run_created_with env self src output_folder tiled_arg ws
              (S (next_handle w))) as [k Hk].
  destruct (tiles_run env self src output_folder tiled_arg (S (next_handle w)) ws)
    as [r evs]. cbn [fst snd trace] in *.
  eexists. split; [reflexivity |].
  intros n path profile Hn.
  assert (created_with
            ((if bool_decide (output_folder ≠ "" ∧ output_folder ∈ paths w)
              then [] else [EvMakedirs output_folder]) ++
             EvOpenR (next_handle w) (filepath self)
             :: evs ++ [EvClose (next_handle w)]) = created_with evs) as Hcw.
  { unfold created_with. rewrite omap_app.
    change (EvOpenR (next_handle w) (filepath self)
            :: evs ++ [EvClose (next_handle w)])
      with ([EvOpenR (next_handle w) (filepath self)]
            ++ evs ++ [EvClose (next_handle w)]).
    rewrite !omap_app. destruct (bool_decide _); simpl; by rewrite app_nil_r. }
  rewrite Hcw, Hk in Hn.
  apply lookup_take_Some in Hn as [Hn _].
  rewrite list_lookup_fmap in Hn.
  destruct (ws !! n) as [win |]; [| done].
  simpl in Hn. injection Hn as <- <-.
  exists win. split; [done |]. split; [done |].
  unfold tile_profile, dict_update. simpl.
  split_and!; [by simplify_map_eq.. |].
  intros key Hkey. rewrite !not_elem_of_cons in Hkey.
  destruct Hkey as (? & ? & ? & ? & ? & _).
  by rewrite !lookup_insert_ne.
Qed.

Lemma stored_tile_profiles_witness :
  ∃ new profile,
    trace (generate_tiles (demo_env []) demo_raster "out" 3 false "JPEG"
             "RGB" demo_world).2 = trace demo_world ++ new ∧
    created_with new !! 1%nat =
      Some ("out/tile_x00003_y00000..tif", profile) ∧
    profile !! "height" = Some (VInt 3) ∧
    profile !! "width" = Some (VInt 2) ∧
    profile !! "tiled" = Some (VBool false) ∧
    profile !! "compress" = Some (VStr "lzw") ∧
    profile !! "photometric" = None.
Proof.
  destruct (stored_tile_profiles (demo_env []) demo_raster "out" 3 false
              "JPEG" "RGB" demo_world (demo_dataset "big.tif")
              [mkWindow 0 0 3 3; mkWindow 3 0 2 3] eq_refl eq_refl)
    as (new & Htrace & Hprofiles).
  assert (∃ profile, created_with new !! 1%nat =
            Some ("out/tile_x00003_y00000..tif", profile)) as [profile Hn].
  { change (trace demo_world ++ new) with new in Htrace. subst new.
    eexists. vm_compute. reflexivity. }
  destruct (Hprofiles 1%nat _ _ Hn)
    as (win & [= <-] & _ & _ & Hh & Hw & _ & Ht & Hrest).
  exists new, profile. split_and!; try done.
  - rewrite Hrest; [reflexivity |].
    rewrite !not_elem_of_cons. split_and!; try done. apply not_elem_of_nil.
  - rewrite Hrest; [reflexivity |].
    rewrite !not_elem_of_cons. split_and!; try done. apply not_elem_of_nil.
Defined.

(** ** Constructing a raster and tiling it *)

(** X15. [Raster(path)] followed by [generate_tiles], for a file that
    opens and a positive tile size.  The constructor opens the file once
    and closes it again, and the raster it returns carries the path and
    the size of the dataset, so that the windows [generate_tiles] then
    enumerates pave the dataset: every pixel of the dataset lies in
    exactly one of them.  Whatever fails afterwards, the files created by
    the two calls are the tiles of the first [k] of these windows, and of
    all of them when [generate_tiles] returns normally. *)
Theorem constructed_raster_tiles_dataset env path output_folder tile_size
    tiled_arg compress photometric w src :
  rio_open env path = Some src →
  0 < tile_size →
  ∃ self w1 r w2 ws k,
    Raster_init env path w = (inl self, w1) ∧
    filepath self = path ∧
    trace w1 =
      trace w ++ [EvOpenR (next_handle w) path; EvClose (next_handle w)] ∧
    generate_tiles env self output_folder tile_size tiled_arg compress
      photometric w1 = (r, w2) ∧
    tile_windows (ds_width src) (ds_height src) tile_size = inl ws ∧
    (∀ x y, 0 ≤ x < ds_width src → 0 ≤ y < ds_height src →
       length (filter (λ win, covers win x y) ws) = 1%nat) ∧
    created (trace w2) =
      created (trace w) ++ take k (tile_path self output_folder <$> ws) ∧
    (r = inl tt → k = length ws).
Proof.
  intros Hopen Hts.
  assert (∃ self,
            Raster_init env path w =
              (inl self,
               mkWorld (S (next_handle w)) (paths w)
                 (trace w ++ [EvOpenR (next_handle w) path;
                              EvClose (next_handle w)])) ∧
            filepath self = path ∧
            r_width self = ds_width src ∧ r_height self = ds_height src)
    as (self & Hinit & Hpath & HW & HH).
  { eexists. unfold Raster_init, run. run_prims. unfold rio_open_r.
    rewrite Hopen. run_prims. rewrite <- app_assoc.
    split_and!; reflexivity. }
  destruct (tile_windows_grid (ds_width src) (ds_height src) tile_size Hts)
    as (cols & rows & Hc & Hr & Hws).
  set (w1 := mkWorld (S (next_handle w)) (paths w)
               (trace w ++ [EvOpenR (next_handle w) path;
                            EvClose (next_handle w)])) in *.
  assert (created (trace w1) = created (trace w)) as Hw1.
  { unfold w1. cbn [trace]. rewrite created_app. simpl. apply app_nil_r. }
  pose proof (generate_tiles_run env self output_folder tile_size tiled_arg
                compress photometric w1) as Hrun.
  cbv zeta in Hrun. rewrite HW, HH, Hws, Hpath, Hopen in Hrun.
  assert (∃ r w2 k,
            generate_tiles env self output_folder tile_size tiled_arg compress
              photometric w1 = (r, w2) ∧
            created (trace w2) =
              created (trace w) ++
              take k (tile_path self output_folder
                        <$> grid (ds_width src) (ds_height src) tile_size
                              cols rows) ∧
            (r = inl tt →
             k = length (grid (ds_width src) (ds_height src) tile_size
                           cols rows)))
    as (r & w2 & k & Hgen & Hcreated & Hall).
  { destruct (folder_ready env w1 output_folder).
    - destruct (tiles_run_created env self src output_folder tiled_arg
                  (grid (ds_width src) (ds_height src) tile_size cols rows)
                  (S (next_handle w1))) as (k & _ & Hk & Hall).
      destruct (tiles_run env self src output_folder tiled_arg
                  (S (next_handle w1))
                  (grid (ds_width src) (ds_height src) tile_size cols rows))
        as [r evs]. cbn [fst snd] in *.
      eexists r, _, k. split_and!; [exact Hrun | | exact Hall].
      cbn [trace]. rewrite created_app, Hw1. f_equal.
      destruct (bool_decide _); simpl; rewrite created_app, Hk; simpl;
        by rewrite app_nil_r.
    - eexists _, w1, 0%nat. split_and!; [exact Hrun | | done].
      by rewrite Hw1, take_0, app_nil_r. }
  exists self, w1, r, w2,
    (grid (ds_width src) (ds_height src) tile_size cols rows), k.
  split_and!; try done.
  intros x y Hx Hy. rewrite grid_count.
  rewrite (axis_covers_once (ds_width src) tile_size Hts cols Hc x Hx).
  by rewrite (axis_covers_once (ds_height src) tile_size Hts rows Hr y Hy).
Qed.

Lemma constructed_raster_tiles_dataset_witness :
  ∃ self w1 r w2 ws k,
    Raster_init (demo_env []) "big.tif" demo_world = (inl self, w1) ∧
    filepath self = "big.tif" ∧
    trace w1 =
      trace demo_world ++
      [EvOpenR (next_handle demo_world) "big.tif";
       EvClose (next_handle demo_world)] ∧
    generate_tiles (demo_env []) self "out" 3 false "JPEG" "RGB" w1 =
      (r, w2) ∧
    tile_windows (ds_width (demo_dataset "big.tif"))
      (ds_height (demo_dataset "big.tif")) 3 = inl ws ∧
    (∀ x y, 0 ≤ x < ds_width (demo_dataset "big.tif") →
            0 ≤ y < ds_height (demo_dataset "big.tif") →
       length (filter (λ win, covers win x y) ws) = 1%nat) ∧
    created (trace w2) =
      created (trace demo_world) ++ take k (tile_path self "out" <$> ws) ∧
    (r = inl tt → k = length ws).
Proof.
  apply (constructed_raster_tiles_dataset (demo_env []) "big.tif" "out" 3
           false "JPEG" "RGB" demo_world (demo_dataset "big.tif"));
    [reflexivity | lia].
Defined.

(** The two calls on the concrete raster: both tiles are created. *)
Example constructed_raster_tiles_demo :
  ∃ self w1 w2,
    Raster_init (demo_env []) "big.tif" demo_world = (inl self, w1) ∧
    generate_tiles (demo_env []) self "out" 3 false "JPEG" "RGB" w1 =
      (inl tt, w2) ∧
    created (trace w2) =
      ["out/tile_x00000_y00000..tif"; "out/tile_x00003_y00000..tif"].
Proof. eexists _, _, _. split_and!; reflexivity. Qed.
